(** * stellarphot: photometry table validation and seeing-profile arithmetic

    A shallow embedding of
      - [stellarphot/core.py]: [Camera], [BaseEnhancedTable], [PhotometryData];
      - [stellarphot/gui_tools/seeing_profile_functions.py]:
        [RadialProfile.find_hwhm], [RadialProfile.FWHM] and the default
        aperture radius of [SeeingProfileWidget._make_show_event].

    Tables are ordered association lists from column names to columns,
    Python exceptions are an error type threaded through a result monad,
    and the numpy float arithmetic of the computed columns is recorded as
    expression trees over rational literals, with a denotation into the
    reals. *)

From Stdlib Require Import List String Bool ZArith QArith Qround Lia.
From Stdlib Require Import Reals Qreals Lra.
From Stdlib Require Qabs Lqa.
Import ListNotations.

Local Open Scope string_scope.
Local Open Scope Z_scope.

(** ** Exceptions and the result monad *)

Module Py.

(** The units of astropy that the tables of this package can carry, as the
    exponents of their base units: equality is equality of exponents. *)
Record Unit : Type := mkUnit {
  deg_pow : Z;
  pix_pow : Z;
  s_pow : Z;
  adu_pow : Z;
  electron_pow : Z;
  ct_pow : Z
}.

Definition u_deg : Unit := mkUnit 1 0 0 0 0 0.
Definition u_pix : Unit := mkUnit 0 1 0 0 0 0.
Definition u_s : Unit := mkUnit 0 0 1 0 0 0.
Definition u_adu : Unit := mkUnit 0 0 0 1 0 0.
Definition u_electron : Unit := mkUnit 0 0 0 0 1 0.
Definition u_ct : Unit := mkUnit 0 0 0 0 0 1.

Definition unit_pow (n : Z) (u : Unit) : Unit :=
  mkUnit (n * deg_pow u) (n * pix_pow u) (n * s_pow u)
         (n * adu_pow u) (n * electron_pow u) (n * ct_pow u).

Definition unit_eqb (a b : Unit) : bool :=
  (deg_pow a =? deg_pow b) && (pix_pow a =? pix_pow b) &&
  (s_pow a =? s_pow b) && (adu_pow a =? adu_pow b) &&
  (electron_pow a =? electron_pow b) && (ct_pow a =? ct_pow b).

(** [x.unit == y.unit], where a plain column reports [None]. *)
Definition opt_unit_eqb (a b : option Unit) : bool :=
  match a, b with
  | None, None => true
  | Some x, Some y => unit_eqb x y
  | _, _ => false
  end.

(** The time scales of [astropy.time.Time]. *)
Inductive time_scale : Type :=
  | TAI | TCB | TCG | TDB | TT | UT1 | UTC | LOCAL.

Definition scale_eqb (a b : time_scale) : bool :=
  match a, b with
  | TAI, TAI | TCB, TCB | TCG, TCG | TDB, TDB
  | TT, TT | UT1, UT1 | UTC, UTC | LOCAL, LOCAL => true
  | _, _ => false
  end.

(** The [ValueError]s of core.py, one constructor per message, carrying the
    values the message interpolates. *)
Inductive value_error : Type :=
  | WrongUnit (col : string) (should_be : Unit) (reported : option Unit)
    (* data['col'] is of wrong unit (should be .. but reported as ..). *)
  | MissingColumn (col : string)
    (* data['col'] is missing from input data. *)
  | BadTimeScale (found : time_scale)
    (* data['date-obs'] astropy.time.Time must have scale='utc', not '..'. *)
  | NotTimeColumn
    (* data['date-obs'] isn't column of astropy.time.Time entries. *)
  | InconsistentUnits (col ref : string) (should_be actual : option Unit)
    (* data['col'] has inconsistent units with data['ref'] (should be ..
       but it's ..). *)
  | ComputedExists (col : string)
    (* Computed column 'col' already exist in data. ... *)
  | NeverHappens (col : string).
    (* Trying to compute column (col). This should never happen. *)

Inductive error : Type :=
  | AttributeError (obj attr : string)
  | KeyError (key : string)
  | IndexError
  | TypeError (what : string)
  | UnitsError
  | ValueError (msg : value_error).

Inductive result (A : Type) : Type :=
  | Ok (a : A)
  | Err (e : error).

Arguments Ok {A} a.
Arguments Err {A} e.

Definition bind {A B : Type} (r : result A) (k : A -> result B) : result B :=
  match r with
  | Ok a => k a
  | Err e => Err e
  end.

End Py.

Export Py.

Notation "x <- e ;; k" := (bind e (fun x => k))
  (at level 61, e at next level, right associativity).
Notation "' pat <- e ;; k" := (bind e (fun x => match x with pat => k end))
  (at level 61, pat pattern, e at next level, right associativity).

(** ** Tables *)

Module Table.

(** A numpy float computed by core.py, as the expression that computes it.
    Literals are the decimal literals of the source and the cells of the
    input table. *)
Inductive float : Type :=
  | F_lit (q : Q)
  | F_pi
  | F_mul (a b : float)
  | F_div (a b : float)
  | F_sub (a b : float)
  | F_sq (a : float)
  | F_sqrt (a : float)
  | F_log10 (a : float).

Definition F_of_int (z : Z) : float := F_lit (inject_Z z).

(** A column of a [QTable]: a [Quantity] ([NumCol (Some u)]), a plain float
    column ([NumCol None]), an integer or string [Column], or a [Time]
    mixin column, which has one scale for all its entries.  Instants are
    whole seconds since MJD 0; leap seconds are not modelled. *)
Inductive column : Type :=
  | NumCol (u : option Unit) (vals : list float)
  | IntCol (vals : list Z)
  | StrCol (vals : list string)
  | TimeCol (scale : time_scale) (vals : list Z).

(** Column names in table order, each with its column. *)
Definition table : Type := list (string * column).

Fixpoint lookup (t : table) (name : string) : option column :=
  match t with
  | [] => None
  | (k, c) :: rest => if String.eqb k name then Some c else lookup rest name
  end.

(** [name in t.colnames] *)
Definition has_col (t : table) (name : string) : bool :=
  match lookup t name with
  | Some _ => true
  | None => false
  end.

(** [t[name]] *)
Definition getitem (t : table) (name : string) : result column :=
  match lookup t name with
  | Some c => Ok c
  | None => Err (KeyError name)
  end.

(** [t[name] = c]: an existing column is replaced where it stands, a new one
    is appended. *)
Fixpoint setitem (t : table) (name : string) (c : column) : table :=
  match t with
  | [] => [(name, c)]
  | (k, old) :: rest =>
      if String.eqb k name then (k, c) :: rest
      else (k, old) :: setitem rest name c
  end.

(** [c.unit]: [None] on a plain [Column]; [Time] has no such attribute. *)
Definition col_unit (c : column) : result (option Unit) :=
  match c with
  | NumCol u _ => Ok u
  | IntCol _ => Ok None
  | StrCol _ => Ok None
  | TimeCol _ _ => Err (AttributeError "Time" "unit")
  end.

(** A column as an operand of float arithmetic: its unit and its values.
    Strings and times are no operands. *)
Definition col_numeric (c : column) : result (option Unit * list float) :=
  match c with
  | NumCol u vals => Ok (u, vals)
  | IntCol vals => Ok (None, map F_of_int vals)
  | StrCol _ => Err (TypeError "str")
  | TimeCol _ _ => Err (TypeError "Time")
  end.

(** [c.value] as an operand of float arithmetic. *)
Definition col_value (c : column) : result (list float) :=
  '(_, vals) <- col_numeric c ;; Ok vals.

(** Elementwise binary operation on two arrays of one length. *)
Fixpoint zip_with {A B C : Type} (f : A -> B -> C)
    (xs : list A) (ys : list B) : list C :=
  match xs, ys with
  | x :: xs', y :: ys' => f x y :: zip_with f xs' ys'
  | _, _ => []
  end.

End Table.

Export Table.

(** ** core.py *)

Module Core.

(** An [astropy.units.Quantity] scalar. *)
Record Quantity : Type := mkQuantity {
  value : float;
  unit_of : Unit
}.

(** [Camera]: the constructor accepts quantities only, which the field types
    say. *)
Record Camera : Type := mkCamera {
  gain : Quantity;
  read_noise : Quantity;
  dark_current : Quantity
}.

Definition Camera_copy (self : Camera) : Camera :=
  mkCamera (gain self) (read_noise self) (dark_current self).

(** [EarthLocation]: geodetic latitude and longitude, in degrees. *)
Record EarthLocation : Type := mkEarthLocation {
  lat : Q;
  lon : Q
}.

Definition EarthLocation_copy (self : EarthLocation) : EarthLocation :=
  mkEarthLocation (lat self) (lon self).

(** *** BaseEnhancedTable *)

(** The loop over [table_description.items()] of
    [BaseEnhancedTable.__init__]. *)
Fixpoint check_description (table_description : list (string * option Unit))
    (data : table) : result unit :=
  match table_description with
  | [] => Ok tt
  | (this_col, this_unit) :: rest =>
      match this_unit with
      | None => check_description rest data
      | Some required =>
          match getitem data this_col with
          | Err (KeyError _) => Err (ValueError (MissingColumn this_col))
          | Err e => Err e
          | Ok c =>
              reported <- col_unit c ;;
              if negb (opt_unit_eqb reported (Some required))
              then Err (ValueError (WrongUnit this_col required reported))
              else check_description rest data
          end
      end
  end.

(** [BaseEnhancedTable.__init__]: the checked data becomes the table. *)
Definition BaseEnhancedTable_init (table_description : list (string * option Unit))
    (data : table) : result table :=
  _ <- check_description table_description data ;;
  Ok data.

(** *** PhotometryData *)

Definition phot_descript : list (string * option Unit) :=
  [ ("star_id", None);
    ("ra", Some u_deg);
    ("dec", Some u_deg);
    ("xcenter", Some u_pix);
    ("ycenter", Some u_pix);
    ("fwhm_x", Some u_pix);
    ("fwhm_y", Some u_pix);
    ("width", Some u_pix);
    ("aperture", Some u_pix);
    ("annulus_inner", Some u_pix);
    ("annulus_outer", Some u_pix);
    ("aperture_sum", None);
    ("annulus_sum", None);
    ("sky_per_pix_avg", None);
    ("sky_per_pix_med", None);
    ("sky_per_pix_std", None);
    ("aperture_net_cnts", None);
    ("noise", None);
    ("exposure", Some u_s);
    ("date-obs", None);
    ("airmass", None);
    ("passband", None);
    ("file", None) ].

(** The check of the time column: [data['date-obs'][0].scale != 'utc'],
    where an entry without a [scale] raises the [AttributeError] that is
    turned into the second message. *)
Definition check_time_scale (data : table) : result unit :=
  c <- getitem data "date-obs" ;;
  match c with
  | TimeCol _ [] | NumCol _ [] | IntCol [] | StrCol [] => Err IndexError
  | TimeCol scale (_ :: _) =>
      if negb (scale_eqb scale UTC)
      then Err (ValueError (BadTimeScale scale))
      else Ok tt
  | NumCol _ (_ :: _) | IntCol (_ :: _) | StrCol (_ :: _) =>
      Err (ValueError NotTimeColumn)
  end.

Definition counts_columns : list string :=
  [ "aperture_sum"; "annulus_sum"; "sky_per_pix_avg"; "sky_per_pix_med";
    "sky_per_pix_std"; "aperture_net_cnts"; "noise" ].

(** The loop over [counts_columns[1:]]. *)
Fixpoint check_counts_against (ref : string) (cnts_unit : option Unit)
    (cols : list string) (data : table) : result unit :=
  match cols with
  | [] => Ok tt
  | this_col :: rest =>
      c <- getitem data this_col ;;
      this_unit <- col_unit c ;;
      if negb (opt_unit_eqb this_unit cnts_unit)
      then Err (ValueError (InconsistentUnits this_col ref cnts_unit this_unit))
      else check_counts_against ref cnts_unit rest data
  end.

(** The check for consistency of the counts-related columns. *)
Definition check_counts_units (data : table) : result unit :=
  match counts_columns with
  | [] => Err IndexError
  | first :: others =>
      c <- getitem data first ;;
      cnts_unit <- col_unit c ;;
      check_counts_against first cnts_unit others data
  end.

Definition computed_columns : list string :=
  [ "aperture_area"; "annulus_area"; "snr"; "bjd"; "night"; "mag_inst";
    "mag_error" ].

(** [int(x)] on a float: truncation toward zero. *)
Definition Qtrunc (q : Q) : Z := Z.quot (Qnum q) (Zpos (Qden q)).

(** [hr_offset = int(self.observatory.lon.value/15)] *)
Definition hr_offset (observatory : EarthLocation) : Z :=
  Qtrunc (lon observatory / 15)%Q.

(** The night of one observation: the local time is the instant moved by
    [offset] hours; [shift_hr] is its hour plus or minus twelve; the instant
    itself is moved back by [shift_hr] hours and by the minutes and seconds
    of the local time, and its MJD is cast to an integer. *)
Definition night_of (offset : Z) (date_obs : Z) : Z :=
  let LocalTime := date_obs + offset * 3600 in
  let hr := (LocalTime mod 86400) / 3600 in
  let minute := (LocalTime mod 3600) / 60 in
  let second := LocalTime mod 60 in
  let shift_hr := if hr <? 12 then hr + 12 else hr - 12 in
  let delta := - shift_hr * 3600 - minute * 60 - second in
  Z.quot (date_obs + delta) 86400.

(** The object under construction: the attributes and the columns. *)
Record PhotometryData : Type := mkPhotometryData {
  observatory : EarthLocation;
  camera : Camera;
  _passband_map : list (string * string);
  cols : table
}.

Section Constructor.

(** astropy's part of [add_bjd_col]: the start times in TDB, plus the light
    travel time to the barycentre for the sky positions seen from [place],
    plus half the exposure, as instants of the model. *)
Variable barycentric_midpoint :
  EarthLocation -> list Z -> list float -> list float -> list float -> list Z.

Definition add_bjd_col (observatory : EarthLocation) (self : table)
    : result column :=
  let place := mkEarthLocation (lat observatory) (lon observatory) in
  date_obs <- getitem self "date-obs" ;;
  match date_obs with
  | TimeCol _ times =>
      ra_col <- getitem self "ra" ;;
      dec_col <- getitem self "dec" ;;
      ra <- col_value ra_col ;;
      dec <- col_value dec_col ;;
      exposure_col <- getitem self "exposure" ;;
      exposure <- col_value exposure_col ;;
      Ok (TimeCol TDB (barycentric_midpoint place times ra dec exposure))
  | _ => Err (TypeError "Time")
  end.

(** One arm of the [match this_col] of [PhotometryData.__init__]. *)
Definition compute_column (observatory : EarthLocation) (camera : Camera)
    (self : table) (this_col : string) : result table :=
  if String.eqb this_col "aperture_area" then
    aperture <- getitem self "aperture" ;;
    '(u, r) <- col_numeric aperture ;;
    Ok (setitem self "aperture_area"
          (NumCol (option_map (unit_pow 2) u)
                  (map (fun x => F_mul F_pi (F_sq x)) r)))
  else if String.eqb this_col "annulus_area" then
    annulus_outer <- getitem self "annulus_outer" ;;
    '(u_out, r_out) <- col_numeric annulus_outer ;;
    annulus_inner <- getitem self "annulus_inner" ;;
    '(u_in, r_in) <- col_numeric annulus_inner ;;
    if opt_unit_eqb u_out u_in then
      Ok (setitem self "annulus_area"
            (NumCol (option_map (unit_pow 2) u_out)
                    (zip_with (fun o i => F_mul F_pi (F_sub (F_sq o) (F_sq i)))
                              r_out r_in)))
    else Err UnitsError
  else if String.eqb this_col "snr" then
    aperture_net_cnts <- getitem self "aperture_net_cnts" ;;
    cnts <- col_value aperture_net_cnts ;;
    noise_col <- getitem self "noise" ;;
    noise <- col_value noise_col ;;
    Ok (setitem self "snr"
          (NumCol None
             (zip_with (fun c n =>
                          F_div (F_mul (F_sqrt (value (gain camera))) c) n)
                       cnts noise)))
  else if String.eqb this_col "bjd" then
    bjd <- add_bjd_col observatory self ;;
    Ok (setitem self "bjd" bjd)
  else if String.eqb this_col "night" then
    date_obs <- getitem self "date-obs" ;;
    match date_obs with
    | TimeCol _ times =>
        Ok (setitem self "night"
              (IntCol (map (night_of (hr_offset observatory)) times)))
    | _ => Err (TypeError "Time")
    end
  else if String.eqb this_col "mag_inst" then
    aperture_net_cnts <- getitem self "aperture_net_cnts" ;;
    cnts <- col_value aperture_net_cnts ;;
    exposure_col <- getitem self "exposure" ;;
    exposure <- col_value exposure_col ;;
    Ok (setitem self "mag_inst"
          (NumCol None
             (zip_with (fun c e =>
                          F_mul (F_lit (-25 # 10))
                            (F_log10 (F_div (F_mul (value (gain camera)) c) e)))
                       cnts exposure)))
  else if String.eqb this_col "mag_error" then
    snr_col <- getitem self "snr" ;;
    '(u, snr) <- col_numeric snr_col ;;
    Ok (setitem self "mag_inst"
          (NumCol (option_map (unit_pow (-1)) u)
                  (map (fun x => F_div (F_lit (1085736205 # 1000000000)) x)
                       snr)))
  else Err (ValueError (NeverHappens this_col)).

(** The loop over [computed_columns]. *)
Fixpoint compute_columns (observatory : EarthLocation) (camera : Camera)
    (retain_user_computed : bool) (todo : list string) (self : table)
    : result table :=
  match todo with
  | [] => Ok self
  | this_col :: rest =>
      if has_col self this_col then
        if negb retain_user_computed
        then Err (ValueError (ComputedExists this_col))
        else compute_columns observatory camera retain_user_computed rest self
      else
        self' <- compute_column observatory camera self this_col ;;
        compute_columns observatory camera retain_user_computed rest self'
  end.

(** [update_passbands]: every entry of the passband column equal to a key of
    the map becomes the value of that key, key after key. *)
Fixpoint update_passbands (passband_map : list (string * string))
    (self : table) : result table :=
  match passband_map with
  | [] => Ok self
  | (orig_pb, aavso_pb) :: rest =>
      passband <- getitem self "passband" ;;
      let renamed :=
        match passband with
        | StrCol vals =>
            StrCol (map (fun pb => if String.eqb pb orig_pb then aavso_pb
                                   else pb) vals)
        | other => other
        end in
      update_passbands rest (setitem self "passband" renamed)
  end.

(** [PhotometryData.__init__].  [None.copy()] is the [AttributeError] of a
    call without [passband_map]. *)
Definition PhotometryData_init (observatory : EarthLocation) (camera : Camera)
    (data : table) (passband_map : option (list (string * string)))
    (retain_user_computed : bool) : result PhotometryData :=
  let self_observatory := EarthLocation_copy observatory in
  let self_camera := Camera_copy camera in
  match passband_map with
  | None => Err (AttributeError "NoneType" "copy")
  | Some self_passband_map =>
      _ <- check_time_scale data ;;
      _ <- check_counts_units data ;;
      self <- BaseEnhancedTable_init phot_descript data ;;
      self <- compute_columns self_observatory self_camera
                retain_user_computed computed_columns self ;;
      self <- update_passbands self_passband_map self ;;
      Ok (mkPhotometryData self_observatory self_camera self_passband_map self)
  end.

End Constructor.

End Core.

Export Core.

(** ** seeing_profile_functions.py *)

Module Seeing.

Local Open Scope Q_scope.

(** [arr[i]] on a one-dimensional array: a negative index counts from the
    end. *)
Definition py_index {A : Type} (arr : list A) (i : Z) : result A :=
  let n := Z.of_nat (List.length arr) in
  let pos := if (i <? 0)%Z then (n + i)%Z else i in
  if ((0 <=? pos)%Z && (pos <? n)%Z)%bool then
    match nth_error arr (Z.to_nat pos) with
    | Some x => Ok x
    | None => Err IndexError
    end
  else Err IndexError.

(** [np.arange(n)] *)
Definition arange (n : nat) : list Z := map Z.of_nat (seq 0 n).

(** [arr[mask]] for a boolean mask. *)
Definition mask_select {A : Type} (arr : list A) (mask : list bool) : list A :=
  map fst (filter snd (combine arr mask)).

(** [x < y] on floats. *)
Definition less_than (x y : Q) : bool := negb (Qle_bool y x).

(** [np.round]: to the nearest integer, a tie to the even one. *)
Definition np_round (x : Q) : Z :=
  let below := Qfloor x in
  match Qcompare (x - inject_Z below) (1 # 2) with
  | Lt => below
  | Gt => (below + 1)%Z
  | Eq => if Z.even below then below else (below + 1)%Z
  end.

(** What [RadialProfile.profile] leaves on the object and [find_hwhm]
    reads. *)
Record RadialProfile : Type := mkRadialProfile {
  ravg : list Q;
  scaled_profile : list Q
}.

(** [RadialProfile.find_hwhm] *)
Definition find_hwhm (self : RadialProfile) : result Q :=
  let r := ravg self in
  let intensity := scaled_profile self in
  let less_than_half := map (fun x => less_than x (5 # 10)) intensity in
  half_index <-
    py_index (mask_select (arange (List.length less_than_half)) less_than_half) 0 ;;
  let before_half := (half_index - 1)%Z in
  r_more <- py_index r before_half ;;
  r_less <- py_index r half_index ;;
  I_more <- py_index intensity before_half ;;
  I_less <- py_index intensity half_index ;;
  let I_half := 5 # 10 in
  let r_half :=
    r_less - (I_less - I_half) / (I_less - I_more) * (r_less - r_more) in
  Ok r_half.

(** The property [RadialProfile.HWHM]. *)
Definition HWHM (self : RadialProfile) : result Q := find_hwhm self.

(** The property [RadialProfile.FWHM]: [int(np.round(2 * self.HWHM))]. *)
Definition FWHM (self : RadialProfile) : result Z :=
  hwhm <- HWHM self ;;
  Ok (np_round (2 * hwhm)).

(** The radius [show_event] puts into the aperture settings after a click:
    [np.round(1.5 * 2 * rad_prof.HWHM, 0)]. *)
Definition aperture_radius_of (hwhm : Q) : Z :=
  np_round ((15 # 10) * 2 * hwhm).

Definition show_event_aperture_radius (rad_prof : RadialProfile) : result Z :=
  hwhm <- HWHM rad_prof ;;
  Ok (aperture_radius_of hwhm).

End Seeing.

Export Seeing.

(** ** The value of a float expression in the reals *)

Module Real.

Local Open Scope R_scope.

Definition log10 (x : R) : R := ln x / ln 10.

Fixpoint denote (x : float) : R :=
  match x with
  | F_lit q => Q2R q
  | F_pi => PI
  | F_mul a b => denote a * denote b
  | F_div a b => denote a / denote b
  | F_sub a b => denote a - denote b
  | F_sq a => denote a * denote a
  | F_sqrt a => sqrt (denote a)
  | F_log10 a => log10 (denote a)
  end.

End Real.

Export Real.

(** ** Sample inputs *)

Module Samples.

Definition quantity_col (u : Unit) (q : Q) : column := NumCol (Some u) [F_lit q].

(** One star in one exposure, with counts in [count_unit] and the sum in the
    aperture in [sum_unit]: gain 1, 100 net counts, noise 10, 1 s. *)
Definition one_row (sum_unit count_unit : Unit) (scale : time_scale) : table :=
  [ ("star_id", IntCol [1]);
    ("ra", quantity_col u_deg 10);
    ("dec", quantity_col u_deg 20);
    ("xcenter", quantity_col u_pix 5);
    ("ycenter", quantity_col u_pix 6);
    ("fwhm_x", quantity_col u_pix 3);
    ("fwhm_y", quantity_col u_pix 3);
    ("width", quantity_col u_pix 3);
    ("aperture", quantity_col u_pix 5);
    ("annulus_inner", quantity_col u_pix 10);
    ("annulus_outer", quantity_col u_pix 15);
    ("aperture_sum", quantity_col sum_unit 120);
    ("annulus_sum", quantity_col count_unit 20);
    ("sky_per_pix_avg", quantity_col count_unit 1);
    ("sky_per_pix_med", quantity_col count_unit 1);
    ("sky_per_pix_std", quantity_col count_unit 1);
    ("aperture_net_cnts", quantity_col count_unit 100);
    ("noise", quantity_col count_unit 10);
    ("exposure", quantity_col u_s 1);
    ("date-obs", TimeCol scale [5184000000]);
    ("airmass", NumCol None [F_lit 1]);
    ("passband", StrCol ["B"]);
    ("file", StrCol ["image.fits"]) ].

Definition good_table : table := one_row u_adu u_adu UTC.

(** [good_table] without its last column, ['file']. *)
Definition table_without_file : table := removelast good_table.

Definition unit_gain_camera : Camera :=
  mkCamera (mkQuantity (F_lit 1) (mkUnit 0 0 0 (-1) 1 0))
           (mkQuantity (F_lit 1) u_electron)
           (mkQuantity (F_lit (1 # 100)) (mkUnit 0 0 (-1) 0 1 0)).

Definition greenwich : EarthLocation := mkEarthLocation (51 # 1) 0.

Definition western_site : EarthLocation := mkEarthLocation 46 (-100).

(** A stand-in for astropy's barycentric correction in closed examples: no
    correction at all.  No statement below depends on the choice. *)
Definition uncorrected (place : EarthLocation) (times : list Z)
    (ra dec exposure : list float) : list Z := times.

(** Bins at radius 0, 3 and 4 with intensity 1.0, 0.6 and 0.4. *)
Definition three_bins : RadialProfile :=
  mkRadialProfile [0; 3; 4]%Q [1; 6 # 10; 4 # 10]%Q.

(** Bins at radius 0, 1 and 2 with intensity 1.0, 0.6 and 0.1: HWHM 1.2. *)
Definition narrow_star : RadialProfile :=
  mkRadialProfile [0; 1; 2]%Q [1; 6 # 10; 1 # 10]%Q.

End Samples.

Export Samples.

(** ** Vocabulary of the statements *)

(** A column with a first entry that is no [Time]. *)
Definition nonempty_not_time (c : column) : bool :=
  match c with
  | NumCol _ (_ :: _) | IntCol (_ :: _) | StrCol (_ :: _) => true
  | _ => false
  end.

(** The column an [InconsistentUnits] error names when [differing] is the
    one counts column out of step. *)
Definition blamed (differing : string) : string :=
  if String.eqb differing "aperture_sum" then "annulus_sum" else differing.

(** The column that the arm for [this_col] of the constructor's [match]
    assigns to. *)
Definition written (this_col : string) : string :=
  if String.eqb this_col "mag_error" then "mag_inst" else this_col.

(** The columns the constructor assigns to: the arms' targets and the
    passband column. *)
Definition assigned_columns : list string :=
  (map written computed_columns ++ ["passband"])%list.

(** The description entries that name a unit. *)
Definition with_unit (entry : string * option Unit) : bool :=
  match snd entry with
  | Some _ => true
  | None => false
  end.

(** The three formulas of the constructor's arms for snr, mag_inst and
    mag_error, on one row. *)
Definition snr_of (gain cnts noise : float) : float :=
  F_div (F_mul (F_sqrt gain) cnts) noise.

Definition mag_of (gain cnts exposure : float) : float :=
  F_mul (F_lit (-25 # 10)) (F_log10 (F_div (F_mul gain cnts) exposure)).

Definition error_of_snr (snr : float) : float :=
  F_div (F_lit (1085736205 # 1000000000)) snr.

(** [t.colnames] *)
Definition colnames (t : table) : list string := map fst t.

(** What [update_passbands] makes of one passband name: the renames of the
    map, one after the other. *)
Definition renamed (passband_map : list (string * string)) (pb : string)
    : string :=
  fold_left (fun current entry =>
               if String.eqb current (fst entry) then snd entry else current)
            passband_map pb.

(** The formulas of the arms for aperture_area and annulus_area, on one
    row. *)
Definition area_of (aperture : float) : float := F_mul F_pi (F_sq aperture).

Definition annulus_area_of (annulus_outer annulus_inner : float) : float :=
  F_mul F_pi (F_sub (F_sq annulus_outer) (F_sq annulus_inner)).

(** The number of rows of a column. *)
Definition col_len (c : column) : nat :=
  match c with
  | NumCol _ vals => List.length vals
  | IntCol vals => List.length vals
  | StrCol vals => List.length vals
  | TimeCol _ vals => List.length vals
  end.


(** ** core.py: Camera and CatalogData *)

Module Catalog.

(** An argument of [Camera]: a [Quantity] or a bare number. *)
Inductive camera_arg : Type :=
  | WithUnit (q : Quantity)
  | Bare (x : float).

(** [Camera.__init__] *)
Definition Camera_init (gain read_noise dark_current : camera_arg)
    : result Camera :=
  match gain with
  | WithUnit self_gain =>
      match read_noise with
      | WithUnit self_read_noise =>
          match dark_current with
          | WithUnit self_dark_current =>
              Ok (mkCamera self_gain self_read_noise self_dark_current)
          | Bare _ => Err (TypeError "dark_current must have units.")
          end
      | Bare _ => Err (TypeError "read_noise must have units.")
      end
  | Bare _ => Err (TypeError "gain must have units.")
  end.

(** [Camera.copy], as the call of the constructor that it is. *)
Definition Camera_copy_call (self : Camera) : result Camera :=
  Camera_init (WithUnit (gain self)) (WithUnit (read_noise self))
    (WithUnit (dark_current self)).

Definition catalog_descript : list (string * option Unit) :=
  [ ("id", None);
    ("ra", Some u_deg);
    ("dec", Some u_deg);
    ("mag", None);
    ("passband", None) ].

(** [Table.rename_column] of astropy: the column must exist; renaming it to
    its own name does nothing; the new name must not be taken; the column
    keeps its place. *)
Definition rename_column (t : table) (name new_name : string) : result table :=
  if negb (has_col t name)
  then Err (KeyError ("Column " ++ name ++ " does not exist"))
  else if String.eqb name new_name then Ok t
  else if has_col t new_name
  then Err (KeyError ("Column " ++ new_name ++ " already exists"))
  else Ok (map (fun entry => if String.eqb (fst entry) name
                             then (new_name, snd entry) else entry) t).

(** [CatalogData.update_colnames], on the copy of the data the constructor
    keeps. *)
Fixpoint update_colnames (colname_map : list (string * string))
    (orig_data : table) : result table :=
  match colname_map with
  | [] => Ok orig_data
  | (orig_name, new_name) :: rest =>
      renamed_data <- rename_column orig_data orig_name new_name ;;
      update_colnames rest renamed_data
  end.

(** The object under construction: the attributes and the columns. *)
Record CatalogData : Type := mkCatalogData {
  name : string;
  data_source : string;
  _colname_map : option (list (string * string));
  _passband_map : option (list (string * string));
  _orig_data : table;
  cat_cols : table
}.

(** [CatalogData.__init__]; its [update_passbands] has the body of the one
    of [PhotometryData]. *)
Definition CatalogData_init (data : table) (name data_source : string)
    (colname_map passband_map : option (list (string * string)))
    : result CatalogData :=
  let orig_data := data in
  orig_data <- match colname_map with
               | Some m => update_colnames m orig_data
               | None => Ok orig_data
               end ;;
  self <- BaseEnhancedTable_init catalog_descript orig_data ;;
  self <- match passband_map with
          | Some m => update_passbands m self
          | None => Ok self
          end ;;
  Ok (mkCatalogData name data_source colname_map passband_map orig_data self).

End Catalog.

(** ** seeing_profile_functions.py: the centre and the profile of a star *)

Module Profile.

Local Open Scope Q_scope.

(** What the functions of this part raise besides the errors of the table
    code. *)
Inductive seeing_error : Type :=
  | CutoutError
    (* Cutout2D: the position is not finite, or the cutout does not lie in
       the image as its mode asks *)
  | WeightsLength
    (* np.bincount: The weights and list don't have the same length. *)
  | EmptyMaximum
    (* max() of an array without entries *)
  | CentroidFailed
    (* RuntimeError: Centroid finding failed, previous was .., current
       is .. *)
  | Raised (e : error).

Inductive outcome (A : Type) : Type :=
  | Fine (a : A)
  | Fails (e : seeing_error).

Arguments Fine {A} a.
Arguments Fails {A} e.

Definition and_then {A B : Type} (o : outcome A) (k : A -> outcome B)
    : outcome B :=
  match o with
  | Fine a => k a
  | Fails e => Fails e
  end.

(** *** numpy *)

Definition Qsum (values : list Q) : Q := fold_right Qplus 0 values.

(** Adds [w] to bin [k], with empty bins before it where the array ends
    earlier. *)
Fixpoint add_at (k : nat) (w : Q) (bins : list Q) : list Q :=
  match k, bins with
  | O, [] => [w]
  | O, b :: rest => (b + w) :: rest
  | S k', [] => 0 :: add_at k' w []
  | S k', b :: rest => b :: add_at k' w rest
  end.

(** [np.bincount(x, weights)] for arrays of one length: one bin for each
    integer up to the largest of [x], each the sum of the weights at the
    places where [x] is its number. *)
Fixpoint bincount (x : list nat) (weights : list Q) : list Q :=
  match x, weights with
  | k :: x', w :: weights' => add_at k w (bincount x' weights')
  | _, _ => []
  end.

Definition bincount_weights (x : list nat) (weights : list Q)
    : outcome (list Q) :=
  if Nat.eqb (List.length x) (List.length weights)
  then Fine (bincount x weights)
  else Fails WeightsLength.

(** [np.bincount(x)]: the number of entries in each bin. *)
Definition bincount_plain (x : list nat) : list Q :=
  bincount x (repeat 1 (List.length x)).

(** [np.indices((size, size))], ravelled: the column and the row of each
    pixel, row after row. *)
Definition indices (size : nat) : list (Z * Z) :=
  flat_map (fun yd => map (fun xd => (Z.of_nat xd, Z.of_nat yd)) (seq 0 size))
           (seq 0 size).

(** [arr.max()] *)
Definition np_max (arr : list Q) : outcome Q :=
  match arr with
  | [] => Fails EmptyMaximum
  | first :: rest =>
      Fine (fold_left (fun m v => if Qle_bool m v then v else m) rest first)
  end.

Fixpoint insert_sorted (v : Q) (sorted : list Q) : list Q :=
  match sorted with
  | [] => [v]
  | s :: rest => if Qle_bool v s then v :: sorted
                 else s :: insert_sorted v rest
  end.

Definition np_sort (arr : list Q) : list Q := fold_right insert_sorted [] arr.

(** [np.median] of the ravelled array: the middle entry of the sorted
    entries, or the mean of the two middle ones.  (Of an empty array numpy
    gives nan, the model 0; no cutout is empty.) *)
Definition np_median (arr : list Q) : Q :=
  let sorted := np_sort arr in
  let n := List.length sorted in
  if Nat.even n
  then (nth (n / 2 - 1) sorted 0 + nth (n / 2) sorted 0) / 2
  else nth (n / 2) sorted 0.

(** *** The functions of the module *)

Inductive cutout_mode : Type := Trim | Strict.

(** What the code reads off a [Cutout2D]. *)
Record Cutout : Type := mkCutout {
  cutout_data : list (list Q);
  center_cutout : Q * Q
}.

(** The state of the loop of [find_center]. *)
Record centring : Type := mkCentring {
  x : Z;
  y : Z;
  x_cm : Q;
  y_cm : Q;
  cen : Q * Q;
  ceno : Q * Q;
  cnt : Z
}.

Section Image.

(** Images, and the three things astropy, photutils and numpy do with them:
    [Cutout2D(data, position, size, mode)], which fails or gives a cutout;
    [np.sqrt] on a float; and the centroid of the cutout of half width [pad]
    around a pixel, that is [centroid_com] of the slice
    [image[y - pad : y + pad, x - pad : x + pad]] less its
    [sigma_clipped_stats] median, with or without the mask of the negative
    pixels, [None] where it is nan. *)
Variable image : Type.
Variable Cutout2D : image -> Q * Q -> nat -> cutout_mode -> option Cutout.
Variable np_sqrt : Q -> Q.
Variable centroid_com : image -> Z -> Z -> Z -> bool -> option (Q * Q).

Definition largest (a b : Q) : Q := if Qle_bool a b then b else a.

(** [np.abs(np.array([x_cm, y_cm]) - pad).max() > 3] *)
Definition off_centre (pad : Z) (x_cm y_cm : Q) : bool :=
  less_than 3 (largest (Qabs.Qabs (x_cm - inject_Z pad))
                       (Qabs.Qabs (y_cm - inject_Z pad))).

(** [np.abs(cen - ceno).max() > 0.1] *)
Definition moved (cen ceno : Q * Q) : bool :=
  less_than (1 # 10) (largest (Qabs.Qabs (fst cen - fst ceno))
                              (Qabs.Qabs (snd cen - snd ceno))).

(** The [while] loop of [find_center]; [rounds] is the number of times its
    test [cnt <= max_iters] can still hold. *)
Fixpoint find_center_loop (data : image) (pad : Z) (rounds : nat)
    (s : centring) : outcome centring :=
  match rounds with
  | O => Fine s
  | S rounds' =>
      if (off_centre pad (x_cm s) (y_cm s) || moved (cen s) (ceno s))%bool
      then
        let x' := (Qfloor (x_cm s) + x s - pad)%Z in
        let y' := (Qfloor (y_cm s) + y s - pad)%Z in
        match centroid_com data x' y' pad true with
        | None => Fails CentroidFailed
        | Some (x_cm', y_cm') =>
            find_center_loop data pad rounds'
              (mkCentring x' y' x_cm' y_cm'
                 (x_cm' + inject_Z x' - inject_Z pad,
                  y_cm' + inject_Z y' - inject_Z pad)
                 (cen s) (cnt s + 1)%Z)
        end
      else Fine s
  end.

(** [find_center]; the result is [None] for a nan position, which the first
    centroid can give without an error. *)
Definition find_center (data : image) (center_guess : Z * Z)
    (cutout_size max_iters : Z) : outcome (option (Q * Q)) :=
  let pad := (cutout_size / 2)%Z in
  let '(x0, y0) := center_guess in
  match centroid_com data x0 y0 pad false with
  | None => Fine None
  | Some (x_cm0, y_cm0) =>
      and_then
        (find_center_loop data pad (Z.to_nat (max_iters + 1))
           (mkCentring x0 y0 x_cm0 y_cm0
              (x_cm0 + inject_Z x0 - inject_Z pad,
               y_cm0 + inject_Z y0 - inject_Z pad)
              (- (100), - (100)) 0%Z))
        (fun s => Fine (Some (cen s)))
  end.

(** [radial_profile]; the integer radius of a pixel is its float radius cut
    to an integer, and [np.sqrt] is never negative.  (A bin without pixels
    would be 0/0, nan in numpy and 0 here; around a centre inside the cutout
    no bin up to the largest radius is without pixels.) *)
Definition radial_profile (data : image) (center : option (Q * Q))
    (size : nat) (return_scaled : bool) : outcome (list Q * list Q * list Q) :=
  let positions := indices size in
  match match center with
        | Some position => Cutout2D data position size Strict
        | None => None
        end with
  | None => Fails CutoutError
  | Some sub_image =>
      let sub_center := center_cutout sub_image in
      let r := map (fun p => np_sqrt ((inject_Z (fst p) - fst sub_center) ^ 2
                                      + (inject_Z (snd p) - snd sub_center) ^ 2))
                   positions in
      let r_exact := r in
      let r := map (fun v => Z.to_nat (Qtrunc v)) r in
      let sub_data := cutout_data sub_image in
      and_then (bincount_weights r (List.concat sub_data)) (fun tbin =>
      and_then (bincount_weights r r_exact) (fun rbin =>
      let nr := bincount_plain r in
      if return_scaled
      then Fine (r_exact, zip_with Qdiv rbin nr, zip_with Qdiv tbin nr)
      else Fine (r_exact, rbin, tbin)))
  end.

(** A [RadialProfile] object after [__init__]. *)
Record Star : Type := mkStar {
  _cen : option (Q * Q);
  _data : image
}.

(** [RadialProfile.__init__] *)
Definition RadialProfile_init (data : image) (x y : Z) : outcome Star :=
  and_then (find_center data (x, y) 30 10)
           (fun cen => Fine (mkStar cen data)).

(** What [RadialProfile.profile] sets on the object. *)
Record Profiled : Type := mkProfiled {
  profile_size : nat;
  r_exact : list Q;
  ravg : list Q;
  radialprofile : list Q;
  sub_data : list (list Q);
  scaled_profile : list Q;
  scaled_exact_counts : list (list Q)
}.

(** [RadialProfile.profile] *)
Definition profile (self : Star) (profile_size : nat) : outcome Profiled :=
  and_then (radial_profile (_data self) (_cen self) profile_size true)
    (fun found =>
       let '(r_exact, ravg, radialprofile) := found in
       match match _cen self with
             | Some position => Cutout2D (_data self) position profile_size Trim
             | None => None
             end with
       | None => Fails CutoutError
       | Some sub_image =>
           let sub_data := cutout_data sub_image in
           let sub_med := np_median (List.concat sub_data) in
           and_then (np_max radialprofile) (fun peak =>
           let adjust_max := peak - sub_med in
           Fine (mkProfiled profile_size r_exact ravg radialprofile sub_data
                   (map (fun v => (v - sub_med) / adjust_max) radialprofile)
                   (map (map (fun v => (v - sub_med) / adjust_max))
                        sub_data)))
       end).

(** The two attributes [find_hwhm] reads. *)
Definition measured (self : Profiled) : RadialProfile :=
  mkRadialProfile (ravg self) (scaled_profile self).

(** [RadialProfile.radius_values] *)
Definition radius_values (self : Profiled) : list Z :=
  arange (List.length (radialprofile self)).

End Image.

End Profile.



(** ** More sample inputs *)

Module MoreSamples.

(** Two catalog stars, the right ascension under the name RAJ2000. *)
Definition vizier_table : table :=
  [ ("id", StrCol ["star 1"; "star 2"]);
    ("RAJ2000", NumCol (Some u_deg) [F_lit 10; F_lit 11]);
    ("dec", NumCol (Some u_deg) [F_lit 20; F_lit 21]);
    ("mag", NumCol None [F_lit 12; F_lit 13]);
    ("passband", StrCol ["Bmag"; "Vmag"]) ].

(** [good_table] with a night column and a mag_inst column of the user. *)
Definition user_table : table :=
  setitem (setitem good_table "night" (IntCol [7]))
          "mag_inst" (NumCol None [F_lit 12]).

(** Images as rows of pixels, with stand-ins for the three library calls in
    closed examples: a cutout that is the whole image, when its size is the
    one asked for; the square root cut to an integer; and the centroid, in
    every cutout, of a star at the position (50.3, 49.7) of the image. *)
Definition pixels : Type := list (list Q).

Definition whole_image (data : pixels) (position : Q * Q) (size : nat)
    (mode : Profile.cutout_mode) : option Profile.Cutout :=
  if Nat.eqb (List.length data) size
  then Some (Profile.mkCutout data position)
  else None.

Definition whole_sqrt (v : Q) : Q := inject_Z (Z.sqrt (Qfloor v)).


(** A star of 10 counts on a sky of 1 to 2 counts, and the object made for
    it with its centre at pixel (1, 1). *)
Definition small_star : pixels :=
  [ [1; 2; 1]; [2; 10; 2]; [1; 2; 1] ]%Q.

Definition centred_star : Profile.Star pixels :=
  Profile.mkStar pixels (Some (1, 1)%Q) small_star.

End MoreSamples.

Export MoreSamples.

(** The number of bins [np.bincount] makes for the integers [x]: one more
    than the largest of them. *)
Definition bins_needed (x : list nat) : nat :=
  fold_right (fun k n => Nat.max (S k) n) 0%nat x.

(** * Properties *)

(** ** Tables and the result monad *)

Lemma bind_ok_inv {A B : Type} (r : result A) (k : A -> result B) (b : B) :
  bind r k = Ok b -> exists a, r = Ok a /\ k a = Ok b.
Proof.
  destruct r as [a | e]; simpl; intro H; [ exists a; auto | discriminate ].
Qed.

Lemma lookup_setitem_same (t : table) (name : string) (c : column) :
  lookup (setitem t name c) name = Some c.
Proof.
  induction t as [ | [k old] rest IH ]; simpl.
  - now rewrite String.eqb_refl.
  - destruct (String.eqb k name) eqn:E; simpl; rewrite E; auto.
Qed.

Lemma lookup_setitem_other (t : table) (name other : string) (c : column) :
  String.eqb name other = false ->
  lookup (setitem t name c) other = lookup t other.
Proof.
  intro Hne. induction t as [ | [k old] rest IH ]; simpl.
  - now rewrite Hne.
  - destruct (String.eqb k name) eqn:E; simpl.
    + apply String.eqb_eq in E. subst k. now rewrite Hne.
    + now rewrite IH.
Qed.

Lemma setitem_lookup_id (t : table) (name : string) (c : column) :
  lookup t name = Some c -> setitem t name c = t.
Proof.
  induction t as [ | [k old] rest IH ]; simpl; [ discriminate | ].
  destruct (String.eqb k name) eqn:E; intro H.
  - now inversion H.
  - now rewrite IH.
Qed.

Lemma has_col_setitem_other (t : table) (name other : string) (c : column) :
  String.eqb name other = false ->
  has_col (setitem t name c) other = has_col t other.
Proof.
  intro Hne. unfold has_col. now rewrite lookup_setitem_other.
Qed.

Lemma has_col_setitem_same (t : table) (name : string) (c : column) :
  has_col (setitem t name c) name = true.
Proof.
  unfold has_col. now rewrite lookup_setitem_same.
Qed.

Lemma unit_eqb_eq (a b : Unit) : unit_eqb a b = true <-> a = b.
Proof.
  destruct a, b; unfold unit_eqb; simpl.
  rewrite !andb_true_iff, !Z.eqb_eq. split.
  - intros [[[[[-> ->] ->] ->] ->] ->]. reflexivity.
  - intro H. inversion H. subst. repeat split.
Qed.

Lemma opt_unit_eqb_eq (a b : option Unit) : opt_unit_eqb a b = true <-> a = b.
Proof.
  destruct a as [x | ], b as [y | ]; simpl; try (split; congruence).
  rewrite unit_eqb_eq. split; congruence.
Qed.

Lemma opt_unit_eqb_refl (a : option Unit) : opt_unit_eqb a a = true.
Proof. now apply opt_unit_eqb_eq. Qed.

Lemma opt_unit_eqb_neq (a b : option Unit) : a <> b -> opt_unit_eqb a b = false.
Proof.
  intro H. destruct (opt_unit_eqb a b) eqn:E; auto.
  apply opt_unit_eqb_eq in E. contradiction.
Qed.

(** ** PhotometryData: the checks before the table is built *)

Section Checks.

Variable barycentric_midpoint :
  EarthLocation -> list Z -> list float -> list float -> list float -> list Z.

Local Abbreviation init := (PhotometryData_init barycentric_midpoint).

(** C10: a call that leaves [passband_map] at its default [None] raises the
    [AttributeError] of [None.copy()], whatever the table, the observatory,
    the camera and the retain flag are: no check of the table is reached. *)
Theorem default_passband_map_raises :
  forall observatory camera data retain_user_computed,
    PhotometryData_init barycentric_midpoint observatory camera data None
      retain_user_computed
    = Err (AttributeError "NoneType" "copy").
Proof.
  intros observatory camera data retain.
  unfold PhotometryData_init.
  (* the copies of the observatory and the camera cannot fail; the match on
     the absent map comes before the first check of [data] *)
  cbv zeta. reflexivity.
Qed.

(** C6: when the date-obs column holds times of a scale other than UTC the
    constructor returns an error and no table; with a passband map and at
    least one row the error is the wrong-scale [ValueError], which differs
    from the one raised for a date-obs column whose entries are no times. *)
Theorem non_utc_scale_rejected :
  forall observatory camera data passband_map retain_user_computed scale times,
    lookup data "date-obs" = Some (TimeCol scale times) ->
    scale <> UTC ->
    (exists e,
        init observatory camera data passband_map retain_user_computed = Err e)
    /\ (forall m,
          passband_map = Some m -> times <> [] ->
          init observatory camera data passband_map retain_user_computed
          = Err (ValueError (BadTimeScale scale)))
    /\ (forall other c m,
          lookup other "date-obs" = Some c -> nonempty_not_time c = true ->
          init observatory camera other (Some m) retain_user_computed
          = Err (ValueError NotTimeColumn))
    /\ BadTimeScale scale <> NotTimeColumn.
Proof.
  intros observatory camera data passband_map retain scale times Hcol Hscale.
  assert (Hneq : scale_eqb scale UTC = false)
    by (destruct scale; auto; contradiction).
  assert (Hfail : forall m, exists e,
             init observatory camera data (Some m) retain = Err e).
  { intro m. unfold init, PhotometryData_init, check_time_scale, getitem.
    rewrite Hcol. simpl. destruct times; simpl; [ eauto | ].
    rewrite Hneq. simpl. eauto. }
  repeat split.
  - destruct passband_map as [m | ]; [ apply Hfail | ].
    eexists. reflexivity.
  - intros m -> Hrows.
    unfold init, PhotometryData_init, check_time_scale, getitem.
    rewrite Hcol. simpl. destruct times; [ contradiction | ].
    now rewrite Hneq.
  - intros other c m Hc Hnt.
    unfold init, PhotometryData_init, check_time_scale, getitem.
    rewrite Hc. simpl.
    destruct c as [u [ | ? ?] | [ | ? ?] | [ | ? ?] | ? ?];
      simpl in Hnt; try discriminate; reflexivity.
  - discriminate.
Qed.

(** The constructor stops at the first failing check. *)
Lemma init_counts_error :
  forall observatory camera data m retain_user_computed e,
    check_time_scale data = Ok tt ->
    check_counts_units data = Err e ->
    init observatory camera data (Some m) retain_user_computed = Err e.
Proof.
  intros observatory camera data m retain e Ht Hc.
  unfold init, PhotometryData_init. rewrite Ht. simpl. now rewrite Hc.
Qed.

(** C4, as the code has it: when the seven counts columns share one unit the
    consistency check passes; when exactly one of them differs from the other
    six the check, and with it the construction, fails with an error naming
    that column if it is one of the six compared with aperture_sum, and naming
    annulus_sum, the first column compared, if it is aperture_sum that
    differs. *)
Theorem counts_units_check :
  forall (data : table) (units : string -> option Unit),
    (forall c, In c counts_columns ->
       exists col, lookup data c = Some col /\ col_unit col = Ok (units c)) ->
    ((forall c, In c counts_columns -> units c = units "aperture_sum") ->
       check_counts_units data = Ok tt)
    /\ (forall differing common,
          In differing counts_columns ->
          units differing <> common ->
          (forall c, In c counts_columns -> c <> differing ->
             units c = common) ->
          check_counts_units data
          = Err (ValueError (InconsistentUnits (blamed differing) "aperture_sum"
                               (units "aperture_sum")
                               (units (blamed differing))))
          /\ forall observatory camera m retain_user_computed,
               check_time_scale data = Ok tt ->
               init observatory camera data (Some m) retain_user_computed
               = Err (ValueError (InconsistentUnits (blamed differing)
                                    "aperture_sum" (units "aperture_sum")
                                    (units (blamed differing))))).
Proof.
  intros data units Hcols.
  assert (Hget : forall c, In c counts_columns ->
            bind (getitem data c) (fun col => col_unit col) = Ok (units c)).
  { intros c Hc. destruct (Hcols c Hc) as [col [Hl Hu]].
    unfold getitem. rewrite Hl. exact Hu. }
  assert (Hstep : forall ref cu c rest,
            In c counts_columns ->
            check_counts_against ref cu (c :: rest) data
            = if negb (opt_unit_eqb (units c) cu)
              then Err (ValueError (InconsistentUnits c ref cu (units c)))
              else check_counts_against ref cu rest data).
  { intros ref cu c rest Hc. destruct (Hcols c Hc) as [col [Hl Hu]].
    simpl. unfold getitem. rewrite Hl. simpl. rewrite Hu. reflexivity. }
  assert (Hhead : check_counts_units data
                  = check_counts_against "aperture_sum" (units "aperture_sum")
                      (tl counts_columns) data).
  { destruct (Hcols "aperture_sum") as [col [Hl Hu]]; [ simpl; auto | ].
    unfold check_counts_units. simpl. unfold getitem. rewrite Hl. simpl.
    rewrite Hu. reflexivity. }
  split.
  - intro Hall. rewrite Hhead. simpl tl.
    repeat (rewrite Hstep by (simpl; tauto);
            rewrite Hall by (simpl; tauto);
            rewrite opt_unit_eqb_refl; simpl negb; cbv iota).
    reflexivity.
  - intros differing common Hin Hdiff Hothers.
    assert (Herr : check_counts_units data
                   = Err (ValueError (InconsistentUnits (blamed differing)
                                        "aperture_sum" (units "aperture_sum")
                                        (units (blamed differing))))).
    { rewrite Hhead. simpl tl. simpl in Hin.
      destruct Hin as [<- | [<- | [<- | [<- | [<- | [<- | [<- | []]]]]]]];
        unfold blamed; simpl String.eqb; cbv iota;
        repeat (rewrite Hstep by (simpl; tauto);
                first
                  [ rewrite (opt_unit_eqb_neq _ _) by
                      (rewrite ?(Hothers "aperture_sum") by
                           (simpl; try tauto; discriminate);
                       rewrite ?(Hothers "annulus_sum") by
                           (simpl; try tauto; discriminate);
                       congruence);
                    reflexivity
                  | rewrite (proj2 (opt_unit_eqb_eq _ _)) by
                      (rewrite (Hothers "aperture_sum") by
                           (simpl; try tauto; discriminate);
                       apply Hothers; [ simpl; tauto | discriminate ]);
                    simpl negb; cbv iota ]). }
    split; [ exact Herr | ].
    intros observatory camera m retain Ht.
    now apply init_counts_error.
Qed.

End Checks.

(** ** BaseEnhancedTable: what the description loop looks at *)

Lemma check_description_unitless (desc : list (string * option Unit))
    (data : table) :
  check_description desc data = check_description (filter with_unit desc) data.
Proof.
  induction desc as [ | [c [u | ]] rest IH ]; simpl; auto.
  destruct (getitem data c) as [col | e]; simpl; auto.
  destruct (col_unit col) as [r | e]; simpl; auto.
  destruct (opt_unit_eqb r (Some u)); simpl; auto.
Qed.

(** The loop reads the table through the columns described with a unit
    only. *)
Lemma check_description_ext (desc : list (string * option Unit))
    (t t' : table) :
  (forall c u, In (c, Some u) desc -> lookup t' c = lookup t c) ->
  check_description desc t' = check_description desc t.
Proof.
  induction desc as [ | [c [u | ]] rest IH ]; simpl; intro H; auto.
  - assert (IH' : check_description rest t' = check_description rest t)
      by (apply IH; intros; apply (H c0 u0); auto).
    unfold getitem. rewrite (H c u) by auto.
    destruct (lookup t c) as [col | ]; simpl; auto.
    destruct (col_unit col) as [r | e]; simpl; auto.
    destruct (opt_unit_eqb r (Some u)); simpl; auto.
  - apply IH. intros c0 u0 Hin. apply (H c0 u0). auto.
Qed.

Lemma check_time_scale_ext (t t' : table) :
  lookup t' "date-obs" = lookup t "date-obs" ->
  check_time_scale t' = check_time_scale t.
Proof.
  intro H. unfold check_time_scale, getitem. now rewrite H.
Qed.

Lemma check_counts_against_ext (ref : string) (cu : option Unit)
    (todo : list string) (t t' : table) :
  (forall c, In c todo -> lookup t' c = lookup t c) ->
  check_counts_against ref cu todo t' = check_counts_against ref cu todo t.
Proof.
  induction todo as [ | c rest IH ]; simpl; intro H; auto.
  assert (IH' : check_counts_against ref cu rest t'
                = check_counts_against ref cu rest t)
    by (apply IH; intros; apply H; auto).
  unfold getitem. rewrite (H c) by auto.
  destruct (lookup t c) as [col | ]; simpl; auto.
  destruct (col_unit col) as [r | e]; simpl; auto.
  destruct (opt_unit_eqb r cu); simpl; auto.
Qed.

Lemma check_counts_units_ext (t t' : table) :
  (forall c, In c counts_columns -> lookup t' c = lookup t c) ->
  check_counts_units t' = check_counts_units t.
Proof.
  intro H. cbv beta iota delta [check_counts_units counts_columns].
  assert (H0 : getitem t' "aperture_sum" = getitem t "aperture_sum")
    by (unfold getitem; rewrite (H "aperture_sum") by (simpl; auto);
        reflexivity).
  rewrite H0.
  destruct (getitem t "aperture_sum") as [col | e]; cbn [bind]; auto.
  destruct (col_unit col) as [r | e]; cbn [bind]; auto.
  apply check_counts_against_ext. intros c Hc. apply H. simpl. auto.
Qed.

(** C3, on the code: a described column is looked up only when its
    description names a unit, so the columns described with [None] are not
    required.  A description of the one column star_id accepts the table
    without columns, and a photometry table without its file column is
    constructed without an error. *)
Theorem unitless_columns_not_required :
  (forall desc data,
      BaseEnhancedTable_init desc data
      = BaseEnhancedTable_init (filter with_unit desc) data)
  /\ BaseEnhancedTable_init [("star_id", None)] [] = Ok []
  /\ (forall barycentric_midpoint,
        has_col table_without_file "file" = false
        /\ exists p,
             PhotometryData_init barycentric_midpoint greenwich
               unit_gain_camera table_without_file (Some []) false = Ok p
             /\ has_col (cols p) "file" = false).
Proof.
  split; [ | split ].
  - intros desc data. unfold BaseEnhancedTable_init.
    now rewrite check_description_unitless.
  - reflexivity.
  - intro bary. split; [ reflexivity | ].
    eexists. split; [ vm_compute; reflexivity | reflexivity ].
Qed.

(** ** PhotometryData: the computed columns *)

(** Takes a successful run of binds and branches apart. *)
Ltac invert_ok H :=
  repeat (cbn [bind] in H;
          match type of H with
          | bind ?r _ = Ok _ =>
              let E := fresh "E" in destruct r eqn:E; [ | discriminate H ]
          | (if ?b then _ else _) = Ok _ =>
              let E := fresh "E" in destruct b eqn:E; try discriminate H
          | match ?x with _ => _ end = Ok _ =>
              let E := fresh "E" in destruct x eqn:E; try discriminate H
          end).

Ltac name_columns :=
  repeat match goal with
         | E : String.eqb _ _ = true |- _ => apply String.eqb_eq in E; subst
         end.

Lemma has_col_setitem_mono (t : table) (name other : string) (c : column) :
  has_col t other = true -> has_col (setitem t name c) other = true.
Proof.
  intro H. destruct (String.eqb name other) eqn:E.
  - apply String.eqb_eq in E. subst. apply has_col_setitem_same.
  - now rewrite has_col_setitem_other.
Qed.

Section Construction.

Variable barycentric_midpoint :
  EarthLocation -> list Z -> list float -> list float -> list float -> list Z.

Local Abbreviation init := (PhotometryData_init barycentric_midpoint).
Local Abbreviation column_arm := (compute_column barycentric_midpoint).
Local Abbreviation column_loop := (compute_columns barycentric_midpoint).

(** Every arm assigns one column, the one [written] names. *)
Lemma compute_column_sets observatory camera self this_col self' :
  column_arm observatory camera self this_col = Ok self' ->
  exists col, self' = setitem self (written this_col) col.
Proof.
  intro H. unfold compute_column, add_bjd_col in H.
  invert_ok H; name_columns; inversion H; eexists; reflexivity.
Qed.

Lemma compute_columns_frame observatory camera retain todo :
  forall self self',
    column_loop observatory camera retain todo self = Ok self' ->
    forall name,
      (forall c, In c todo -> String.eqb (written c) name = false) ->
      lookup self' name = lookup self name.
Proof.
  induction todo as [ | c rest IH ]; simpl; intros self self' H name Hname.
  - now inversion H.
  - destruct (has_col self c).
    + destruct retain; simpl in H; [ | discriminate ].
      apply (IH _ _ H). auto.
    + apply bind_ok_inv in H. destruct H as [s1 [H1 H2]].
      apply compute_column_sets in H1. destruct H1 as [col ->].
      rewrite (IH _ _ H2) by auto.
      apply lookup_setitem_other. auto.
Qed.

Lemma compute_columns_mono observatory camera retain todo :
  forall self self',
    column_loop observatory camera retain todo self = Ok self' ->
    forall name, has_col self name = true -> has_col self' name = true.
Proof.
  induction todo as [ | c rest IH ]; simpl; intros self self' H name Hname.
  - now inversion H; subst.
  - destruct (has_col self c).
    + destruct retain; simpl in H; [ | discriminate ].
      apply (IH _ _ H). auto.
    + apply bind_ok_inv in H. destruct H as [s1 [H1 H2]].
      apply compute_column_sets in H1. destruct H1 as [col ->].
      apply (IH _ _ H2). now apply has_col_setitem_mono.
Qed.

(** After the loop every column of the list that an arm writes under its own
    name is there. *)
Lemma compute_columns_present observatory camera retain todo :
  forall self self',
    column_loop observatory camera retain todo self = Ok self' ->
    forall c, In c todo -> written c = c -> has_col self' c = true.
Proof.
  induction todo as [ | c0 rest IH ]; simpl; intros self self' H c Hin Hw.
  - contradiction.
  - destruct (has_col self c0) eqn:Hc0.
    + destruct retain; simpl in H; [ | discriminate ].
      destruct Hin as [<- | Hin]; [ | now apply (IH _ _ H) ].
      now apply (compute_columns_mono _ _ _ _ _ _ H).
    + apply bind_ok_inv in H. destruct H as [s1 [H1 H2]].
      destruct Hin as [<- | Hin]; [ | now apply (IH _ _ H2) ].
      apply compute_column_sets in H1. destruct H1 as [col ->].
      apply (compute_columns_mono _ _ _ _ _ _ H2).
      rewrite Hw. apply has_col_setitem_same.
Qed.

Lemma compute_columns_app observatory camera retain (l1 l2 : list string) :
  forall self,
    column_loop observatory camera retain (l1 ++ l2) self
    = bind (column_loop observatory camera retain l1 self)
           (column_loop observatory camera retain l2).
Proof.
  induction l1 as [ | c rest IH ]; simpl; intro self; auto.
  destruct (has_col self c).
  - destruct (negb retain); simpl; auto.
  - destruct (column_arm observatory camera self c); simpl; auto.
Qed.

Lemma compute_columns_retained observatory camera todo self :
  (forall c, In c todo -> has_col self c = true) ->
  column_loop observatory camera true todo self = Ok self.
Proof.
  induction todo as [ | c rest IH ]; simpl; intro H; auto.
  rewrite (H c) by auto. simpl. apply IH. auto.
Qed.

Lemma update_passbands_frame (m : list (string * string)) :
  forall self self',
    update_passbands m self = Ok self' ->
    forall name,
      String.eqb "passband" name = false ->
      lookup self' name = lookup self name.
Proof.
  induction m as [ | [orig_pb aavso_pb] rest IH ]; simpl;
    intros self self' H name Hname.
  - now inversion H.
  - apply bind_ok_inv in H. destruct H as [c [_ H]].
    rewrite (IH _ _ H) by auto. now apply lookup_setitem_other.
Qed.

(** A successful construction, step by step. *)
Lemma init_ok_inv observatory camera data passband_map retain p :
  init observatory camera data passband_map retain = Ok p ->
  exists m s,
    passband_map = Some m
    /\ check_time_scale data = Ok tt
    /\ check_counts_units data = Ok tt
    /\ check_description phot_descript data = Ok tt
    /\ column_loop (EarthLocation_copy observatory) (Camera_copy camera)
         retain computed_columns data = Ok s
    /\ update_passbands m s = Ok (cols p)
    /\ p = mkPhotometryData (EarthLocation_copy observatory)
             (Camera_copy camera) m (cols p).
Proof.
  unfold PhotometryData_init, BaseEnhancedTable_init. intro H.
  destruct passband_map as [m | ]; [ | discriminate ].
  destruct (check_time_scale data) as [[] | ]; [ | discriminate ].
  destruct (check_counts_units data) as [[] | ]; [ | discriminate ].
  cbn [bind] in H.
  destruct (check_description phot_descript data) as [[] | ];
    [ | discriminate ].
  cbn [bind] in H.
  destruct (compute_columns _ _ _ _ _ data) as [s | ] eqn:Hloop;
    [ | discriminate ].
  cbn [bind] in H.
  destruct (update_passbands m s) as [s' | ] eqn:Hpb; [ | discriminate ].
  cbn [bind] in H. inversion H. subst p. simpl.
  exists m, s. repeat split; auto.
Qed.

(** The constructor leaves every column alone that it does not assign. *)
Lemma init_frame observatory camera data passband_map retain p :
  init observatory camera data passband_map retain = Ok p ->
  forall name,
    (forall a, In a assigned_columns -> String.eqb a name = false) ->
    lookup (cols p) name = lookup data name.
Proof.
  intros H name Hname. apply init_ok_inv in H.
  destruct H as [m [s [_ [_ [_ [_ [Hloop [Hpb _]]]]]]]].
  rewrite (update_passbands_frame _ _ _ Hpb).
  - apply (compute_columns_frame _ _ _ _ _ _ Hloop).
    intros c Hc. apply Hname. unfold assigned_columns.
    apply in_or_app. left. now apply in_map.
  - apply Hname. unfold assigned_columns. apply in_or_app. right. simpl. auto.
Qed.

End Construction.

Ltac not_assigned :=
  let a := fresh "a" in
  let Ha := fresh "Ha" in
  intros a Ha; unfold assigned_columns in Ha; simpl in Ha;
  repeat (destruct Ha as [<- | Ha]; [ reflexivity | ]);
  contradiction.

Section Constructed.

Variable barycentric_midpoint :
  EarthLocation -> list Z -> list float -> list float -> list float -> list Z.

Local Abbreviation init := (PhotometryData_init barycentric_midpoint).
Local Abbreviation column_arm := (compute_column barycentric_midpoint).
Local Abbreviation column_loop := (compute_columns barycentric_midpoint).

Lemma snr_arm_inv observatory camera self self' :
  column_arm observatory camera self "snr" = Ok self' ->
  exists cnts noise,
    bind (getitem self "aperture_net_cnts") col_value = Ok cnts
    /\ bind (getitem self "noise") col_value = Ok noise
    /\ self' = setitem self "snr"
                 (NumCol None
                    (zip_with (snr_of (value (gain camera))) cnts noise)).
Proof.
  intro H. unfold compute_column in H. simpl String.eqb in H. cbv iota in H.
  destruct (getitem self "aperture_net_cnts") as [c1 | ]; [ | discriminate ].
  cbn [bind] in H |- *.
  destruct (col_value c1) as [cnts | ]; [ | discriminate ].
  cbn [bind] in H.
  destruct (getitem self "noise") as [c2 | ]; [ | discriminate ].
  cbn [bind] in H |- *.
  destruct (col_value c2) as [noise | ]; [ | discriminate ].
  cbn [bind] in H. inversion H.
  exists cnts, noise. repeat split; reflexivity.
Qed.

Lemma mag_error_arm_inv observatory camera self self' :
  column_arm observatory camera self "mag_error" = Ok self' ->
  exists col u vals,
    lookup self "snr" = Some col
    /\ col_numeric col = Ok (u, vals)
    /\ self' = setitem self "mag_inst"
                 (NumCol (option_map (unit_pow (-1)) u)
                         (map error_of_snr vals)).
Proof.
  intro H. unfold compute_column in H. simpl String.eqb in H. cbv iota in H.
  unfold getitem in H.
  destruct (lookup self "snr") as [col | ] eqn:Hsnr; [ | discriminate ].
  cbn [bind] in H.
  destruct (col_numeric col) as [[u vals] | ] eqn:Hnum; [ | discriminate ].
  cbn [bind] in H. inversion H.
  exists col, u, vals. repeat split; auto.
Qed.

Lemma mag_error_arm observatory camera self col u vals :
  lookup self "snr" = Some col ->
  col_numeric col = Ok (u, vals) ->
  column_arm observatory camera self "mag_error"
  = Ok (setitem self "mag_inst"
          (NumCol (option_map (unit_pow (-1)) u) (map error_of_snr vals))).
Proof.
  intros Hsnr Hnum. unfold compute_column. simpl String.eqb. cbv iota.
  unfold getitem. rewrite Hsnr. cbn [bind]. rewrite Hnum. reflexivity.
Qed.

(** C1, on the code: the arm for mag_error assigns the column mag_inst, and
    nothing assigns a column mag_error: a table constructed from data
    without a mag_error column has none either. *)
Theorem mag_error_never_added :
  forall observatory camera data passband_map retain_user_computed p,
    has_col data "mag_error" = false ->
    init observatory camera data passband_map retain_user_computed = Ok p ->
    has_col (cols p) "mag_error" = false.
Proof.
  intros observatory camera data passband_map retain p Hno Hinit.
  unfold has_col in *.
  rewrite (init_frame _ _ _ _ _ _ _ Hinit); [ exact Hno | not_assigned ].
Qed.

(** C2, on the code: for a table without computed columns the arm for
    mag_inst is run, and then the arm for mag_error assigns mag_inst again:
    the constructed table holds 1.085736205 / snr in its mag_inst column.
    For gain 1, 100 net counts, noise 10 and 1 s that is 0.1085736205, where
    the formula of mag_inst gives -5. *)
Theorem mag_inst_overwritten :
  (forall observatory camera data m retain_user_computed p,
      (forall c, In c computed_columns -> has_col data c = false) ->
      init observatory camera data (Some m) retain_user_computed = Ok p ->
      exists cnts noise,
        bind (getitem data "aperture_net_cnts") col_value = Ok cnts
        /\ bind (getitem data "noise") col_value = Ok noise
        /\ lookup (cols p) "mag_inst"
           = Some (NumCol None
                     (map error_of_snr
                          (zip_with (snr_of (value (gain camera)))
                                    cnts noise))))
  /\ denote (mag_of (F_lit 1) (F_lit 100) (F_lit 1)) = (-5)%R
  /\ denote (error_of_snr (snr_of (F_lit 1) (F_lit 100) (F_lit 10)))
     = (1085736205 / 10000000000)%R.
Proof.
  split; [ | split ].
  - intros observatory camera data m retain p Hnone Hinit.
    apply init_ok_inv in Hinit.
    destruct Hinit as [m0 [s [_ [_ [_ [_ [Hloop [Hpb _]]]]]]]].
    change computed_columns
      with (["aperture_area"; "annulus_area"]
              ++ ["snr"] ++ ["bjd"; "night"; "mag_inst"] ++ ["mag_error"])%list
      in Hloop.
    rewrite compute_columns_app in Hloop.
    apply bind_ok_inv in Hloop. destruct Hloop as [s2 [H2 Hloop]].
    rewrite compute_columns_app in Hloop.
    apply bind_ok_inv in Hloop. destruct Hloop as [s3 [H3 Hloop]].
    rewrite compute_columns_app in Hloop.
    apply bind_ok_inv in Hloop. destruct Hloop as [s6 [H6 H7]].
    assert (F2 : forall name,
               String.eqb "aperture_area" name = false ->
               String.eqb "annulus_area" name = false ->
               lookup s2 name = lookup data name).
    { intros name Ha Hb. apply (compute_columns_frame _ _ _ _ _ _ _ H2).
      intros c [<- | [<- | []]]; assumption. }
    assert (Hsnr2 : has_col s2 "snr" = false).
    { unfold has_col. rewrite F2 by reflexivity.
      apply (Hnone "snr"). simpl. tauto. }
    simpl in H3. rewrite Hsnr2 in H3.
    apply bind_ok_inv in H3. destruct H3 as [s3' [H3 Heq]].
    inversion Heq. subst s3'. clear Heq.
    apply snr_arm_inv in H3. destruct H3 as [cnts [noise [Hc [Hn ->]]]].
    unfold getitem in Hc, Hn. rewrite F2 in Hc, Hn by reflexivity.
    exists cnts, noise. split; [ exact Hc | split; [ exact Hn | ] ].
    assert (F6 : forall name,
               String.eqb "bjd" name = false ->
               String.eqb "night" name = false ->
               String.eqb "mag_inst" name = false ->
               lookup s6 name
               = lookup (setitem s2 "snr"
                           (NumCol None
                              (zip_with
                                 (snr_of (value (gain (Camera_copy camera))))
                                 cnts noise))) name).
    { intros name Ha Hb Hd. apply (compute_columns_frame _ _ _ _ _ _ _ H6).
      intros c [<- | [<- | [<- | []]]]; assumption. }
    assert (Herr6 : has_col s6 "mag_error" = false).
    { unfold has_col. rewrite F6 by reflexivity.
      rewrite lookup_setitem_other by reflexivity.
      rewrite F2 by reflexivity. apply (Hnone "mag_error"). simpl. tauto. }
    simpl in H7. rewrite Herr6 in H7.
    apply bind_ok_inv in H7. destruct H7 as [s7 [H7 Heq]].
    inversion Heq. subst s7. clear Heq.
    assert (Hsnr6 : lookup s6 "snr"
                    = Some (NumCol None
                              (zip_with
                                 (snr_of (value (gain (Camera_copy camera))))
                                 cnts noise)))
      by (rewrite F6 by reflexivity; apply lookup_setitem_same).
    rewrite (mag_error_arm _ _ _ _ _ _ Hsnr6 eq_refl) in H7.
    inversion H7. subst s.
    rewrite (update_passbands_frame _ _ _ Hpb) by reflexivity.
    now rewrite lookup_setitem_same.
  - unfold mag_of, log10. simpl denote. unfold log10.
    assert (Hten : (0 < ln 10)%R)
      by (rewrite <- ln_1; apply ln_increasing; lra).
    replace (Q2R 1 * Q2R 100 / Q2R 1)%R with (10 * 10)%R
      by (unfold Q2R; simpl; lra).
    rewrite ln_mult by lra.
    replace (Q2R (-25 # 10)) with (-5 / 2)%R by (unfold Q2R; simpl; lra).
    field. lra.
  - unfold error_of_snr, snr_of. simpl denote.
    replace (Q2R 1) with 1%R by (unfold Q2R; simpl; lra).
    rewrite sqrt_1. unfold Q2R. simpl. lra.
Qed.

(** The checks of the constructor pass again on the table it made. *)
Lemma checks_pass_again observatory camera data passband_map retain p :
  init observatory camera data passband_map retain = Ok p ->
  check_time_scale (cols p) = Ok tt
  /\ check_counts_units (cols p) = Ok tt
  /\ check_description phot_descript (cols p) = Ok tt.
Proof.
  intro Hinit. pose proof (init_frame _ _ _ _ _ _ _ Hinit) as Hframe.
  apply init_ok_inv in Hinit.
  destruct Hinit as [m [s [_ [Ht [Hc [Hd _]]]]]].
  split; [ | split ].
  - rewrite <- Ht. apply check_time_scale_ext. apply Hframe. not_assigned.
  - rewrite <- Hc. apply check_counts_units_ext.
    intros c Hin. apply Hframe. simpl in Hin.
    repeat (destruct Hin as [<- | Hin]; [ not_assigned | ]). contradiction.
  - rewrite <- Hd. apply check_description_ext.
    intros c u Hin. apply Hframe. simpl in Hin.
    repeat (destruct Hin as [Hin | Hin];
            [ inversion Hin; subst; not_assigned | ]).
    contradiction.
Qed.

(** Every computed column but mag_error is in the table the constructor
    made. *)
Lemma computed_present observatory camera data passband_map retain p :
  init observatory camera data passband_map retain = Ok p ->
  forall c, In c (removelast computed_columns) -> has_col (cols p) c = true.
Proof.
  intros Hinit c Hin. apply init_ok_inv in Hinit.
  destruct Hinit as [m [s [_ [_ [_ [_ [Hloop [Hpb _]]]]]]]].
  assert (Hs : has_col s c = true).
  { apply (compute_columns_present _ _ _ _ _ _ _ Hloop); simpl in Hin |- *;
      repeat (destruct Hin as [<- | Hin]; [ auto 10 | ]); contradiction. }
  unfold has_col in *.
  rewrite (update_passbands_frame _ _ _ Hpb); [ exact Hs | ].
  simpl in Hin.
  repeat (destruct Hin as [<- | Hin]; [ reflexivity | ]); contradiction.
Qed.

(** C9, as the code has it: the validation of [BaseEnhancedTable] returns
    the table it is given, so it succeeds again on its result.  A table made
    by [PhotometryData] is refused by a second construction with the default
    [retain_user_computed=False], which finds the computed column
    aperture_area in it; with [retain_user_computed=True] and an empty
    passband map the second construction succeeds and returns the same
    columns, observatory and camera. *)
Theorem revalidation :
  (forall desc data t,
      BaseEnhancedTable_init desc data = Ok t ->
      t = data /\ BaseEnhancedTable_init desc t = Ok t)
  /\ (forall observatory camera data passband_map retain_user_computed p,
        init observatory camera data passband_map retain_user_computed = Ok p ->
        (forall m,
            init observatory camera (cols p) (Some m) false
            = Err (ValueError (ComputedExists "aperture_area")))
        /\ exists p',
             init observatory camera (cols p) (Some []) true = Ok p'
             /\ cols p' = cols p
             /\ Core.observatory p' = Core.observatory p
             /\ Core.camera p' = Core.camera p).
Proof.
  split.
  - intros desc data t H. unfold BaseEnhancedTable_init in *.
    destruct (check_description desc data) as [[] | ] eqn:Hd;
      [ | discriminate ].
    cbn [bind] in H. inversion H. subst t. rewrite Hd. auto.
  - intros observatory camera data passband_map retain p Hinit.
    destruct (checks_pass_again _ _ _ _ _ _ Hinit) as [Ht [Hc Hd]].
    pose proof (computed_present _ _ _ _ _ _ Hinit) as Hpresent.
    split.
    + intro m. unfold PhotometryData_init, BaseEnhancedTable_init.
      rewrite Ht, Hc, Hd. cbn [bind].
      unfold computed_columns. cbn [compute_columns].
      rewrite (Hpresent "aperture_area") by (simpl; auto).
      reflexivity.
    + exists (mkPhotometryData (EarthLocation_copy observatory)
                (Camera_copy camera) [] (cols p)).
      assert (Hloop2 :
                column_loop (EarthLocation_copy observatory) (Camera_copy camera)
                  true computed_columns (cols p) = Ok (cols p)).
      { change computed_columns
          with (removelast computed_columns ++ ["mag_error"])%list.
        rewrite compute_columns_app.
        rewrite (compute_columns_retained _ _ _ _ _ Hpresent).
        cbn [bind compute_columns negb].
        destruct (has_col (cols p) "mag_error") eqn:Hme; [ reflexivity | ].
        apply init_ok_inv in Hinit.
        destruct Hinit as [m [s [_ [_ [_ [_ [Hloop [Hpb _]]]]]]]].
        change computed_columns
          with (removelast computed_columns ++ ["mag_error"])%list in Hloop.
        rewrite compute_columns_app in Hloop.
        apply bind_ok_inv in Hloop. destruct Hloop as [s6 [H6 H7]].
        assert (Hme6 : has_col s6 "mag_error" = false).
        { unfold has_col in *.
          rewrite <- (compute_columns_frame _ _ _ _ _ _ _ H7 "mag_error").
          - rewrite <- (update_passbands_frame _ _ _ Hpb) by reflexivity.
            exact Hme.
          - intros c [<- | []]. reflexivity. }
        cbn [compute_columns] in H7. rewrite Hme6 in H7.
        apply bind_ok_inv in H7. destruct H7 as [s7 [H7 Heq]].
        inversion Heq. subst s7. clear Heq.
        apply mag_error_arm_inv in H7.
        destruct H7 as [col [u [vals [Hsnr [Hnum ->]]]]].
        assert (Hsnr' : lookup (cols p) "snr" = Some col).
        { rewrite (update_passbands_frame _ _ _ Hpb) by reflexivity.
          now rewrite lookup_setitem_other by reflexivity. }
        assert (Hmag' : lookup (cols p) "mag_inst"
                        = Some (NumCol (option_map (unit_pow (-1)) u)
                                       (map error_of_snr vals))).
        { rewrite (update_passbands_frame _ _ _ Hpb) by reflexivity.
          apply lookup_setitem_same. }
        rewrite (mag_error_arm _ _ _ _ _ _ Hsnr' Hnum). cbn [bind].
        now rewrite (setitem_lookup_id _ _ _ Hmag'). }
      split; [ | split; [ reflexivity | ] ].
      * unfold PhotometryData_init, BaseEnhancedTable_init.
        rewrite Ht, Hc, Hd. cbn [bind]. rewrite Hloop2. reflexivity.
      * apply init_ok_inv in Hinit.
        destruct Hinit as [m [s [_ [_ [_ [_ [_ [_ ->]]]]]]]].
        split; reflexivity.
Qed.

End Constructed.

(** ** The night of an observation *)

Lemma Qtrunc_nonneg (q : Q) : (0 <= q)%Q -> Qtrunc q = Qfloor q.
Proof.
  destruct q as [n d]. unfold Qle, Qtrunc, Qfloor. simpl. intro H.
  apply Z.quot_div_nonneg; lia.
Qed.

Lemma Qtrunc_neg (q : Q) : (q < 0)%Q -> Qtrunc q = Qceiling q.
Proof.
  destruct q as [n d]. unfold Qlt, Qtrunc, Qceiling, Qfloor. simpl. intro H.
  rewrite <- (Z.opp_involutive n) at 1. rewrite Z.quot_opp_l by lia.
  f_equal. apply Z.quot_div_nonneg; lia.
Qed.

(** The instant is moved back by the time since the last local noon. *)
Lemma night_of_noon (offset date_obs : Z) :
  night_of offset date_obs
  = Z.quot (date_obs - (date_obs + offset * 3600 - 43200) mod 86400) 86400.
Proof.
  unfold night_of. f_equal.
  destruct ((date_obs + offset * 3600) mod 86400 / 3600 <? 12) eqn:E;
    [ apply Z.ltb_lt in E | apply Z.ltb_ge in E ];
    Z.to_euclidean_division_equations; lia.
Qed.

(** C5, as the code has it: the hour offset is the longitude in degrees over
    15 cut to an integer toward zero, which is the floor for a longitude that
    is not negative and the ceiling for a negative one.  The night column
    holds, for each UTC instant, the integer part of the MJD of that instant
    moved back by the time since the last local noon.  At longitude 0, two
    observations 2 hours apart on both sides of midnight get one night, and
    two observations 13 hours apart on both sides of noon, after MJD 1, get
    two consecutive nights. *)
Theorem night_binning :
  (forall site, (0 <= lon site)%Q ->
      hr_offset site = Qfloor (lon site / 15))
  /\ (forall site, (lon site < 0)%Q ->
        hr_offset site = Qceiling (lon site / 15))
  /\ (forall barycentric_midpoint site ccd self scale times,
        lookup self "date-obs" = Some (TimeCol scale times) ->
        compute_column barycentric_midpoint site ccd self "night"
        = Ok (setitem self "night"
                (IntCol (map (night_of (hr_offset site)) times))))
  /\ (forall offset date_obs,
        night_of offset date_obs
        = Z.quot (date_obs - (date_obs + offset * 3600 - 43200) mod 86400)
                 86400)
  /\ (forall site, (lon site == 0)%Q -> hr_offset site = 0)
  /\ (forall day t,
        0 <= day -> t < 86400 * (day + 1) <= t + 7200 ->
        night_of 0 t = day /\ night_of 0 (t + 7200) = day)
  /\ (forall day t,
        1 <= day -> t < 86400 * day + 43200 <= t + 46800 ->
        night_of 0 t = day - 1 /\ night_of 0 (t + 46800) = day).
Proof.
  repeat split.
  - intros site H. apply Qtrunc_nonneg.
    apply Qle_shift_div_l; [ reflexivity | ]. now rewrite Qmult_0_l.
  - intros site H. apply Qtrunc_neg.
    apply Qlt_shift_div_r; [ reflexivity | ]. now rewrite Qmult_0_l.
  - intros bary site ccd self scale times H.
    unfold compute_column. simpl String.eqb. cbv iota.
    unfold getitem. now rewrite H.
  - intros. apply night_of_noon.
  - intros site H. unfold hr_offset, Qtrunc.
    destruct (lon site) as [n d]. unfold Qeq in H. simpl in *.
    assert (n = 0) by lia. subst n. reflexivity.
  - rewrite night_of_noon. Z.to_euclidean_division_equations. lia.
  - rewrite night_of_noon. Z.to_euclidean_division_equations. lia.
  - rewrite night_of_noon. Z.to_euclidean_division_equations. lia.
  - rewrite night_of_noon. Z.to_euclidean_division_equations. lia.
Qed.

(** ** The half width of a radial profile *)

Section Indexing.

Context {A : Type}.

Lemma py_index_head (x : A) (rest : list A) : py_index (x :: rest) 0 = Ok x.
Proof.
  unfold py_index. cbn [List.length Z.ltb Z.compare].
  replace (0 <? Z.of_nat (S (List.length rest))) with true
    by (symmetry; apply Z.ltb_lt; lia).
  reflexivity.
Qed.

Lemma py_index_nat (arr : list A) (i : nat) (x : A) :
  nth_error arr i = Some x -> py_index arr (Z.of_nat i) = Ok x.
Proof.
  intro H. unfold py_index.
  assert (Hlen : (i < List.length arr)%nat)
    by (apply nth_error_Some; congruence).
  replace (Z.of_nat i <? 0) with false by (symmetry; apply Z.ltb_ge; lia).
  replace (0 <=? Z.of_nat i) with true by (symmetry; apply Z.leb_le; lia).
  replace (Z.of_nat i <? Z.of_nat (List.length arr)) with true
    by (symmetry; apply Z.ltb_lt; lia).
  simpl. now rewrite Nat2Z.id, H.
Qed.

(** The first selected index of a mask is the first place where it holds. *)
Lemma first_selected (f : A -> bool) :
  forall (arr : list A) (start i : nat) (y : A),
    (forall j x, (j < i)%nat -> nth_error arr j = Some x -> f x = false) ->
    nth_error arr i = Some y ->
    f y = true ->
    exists rest,
      mask_select (map Z.of_nat (seq start (List.length (map f arr))))
                  (map f arr)
      = Z.of_nat (start + i) :: rest.
Proof.
  induction arr as [ | x arr IH ]; intros start i y Hbefore Hi Hy.
  - destruct i; discriminate.
  - destruct i as [ | i ].
    + simpl in Hi. inversion Hi. subst x.
      unfold mask_select. simpl. rewrite Hy. simpl.
      rewrite Nat.add_0_r. eauto.
    + assert (Hx : f x = false) by (apply (Hbefore 0%nat); [ lia | reflexivity ]).
      destruct (IH (S start) i y) as [rest Hrest]; auto.
      { intros j z Hj Hz. apply (Hbefore (S j)); [ lia | exact Hz ]. }
      exists rest. unfold mask_select in *. simpl. rewrite Hx. simpl.
      rewrite Hrest. f_equal. f_equal. lia.
Qed.

End Indexing.

Lemma less_than_half_true (x : Q) : (x < 1 # 2)%Q -> less_than x (5 # 10) = true.
Proof.
  intro H. unfold less_than. destruct (Qle_bool (5 # 10) x) eqn:E; auto.
  apply Qle_bool_iff in E. exfalso.
  apply (Qlt_irrefl x). apply Qlt_le_trans with (1 # 2)%Q; auto.
  apply Qle_trans with (5 # 10)%Q; auto. discriminate.
Qed.

Lemma less_than_half_false (x : Q) : (1 # 2 <= x)%Q -> less_than x (5 # 10) = false.
Proof.
  intro H. unfold less_than.
  replace (Qle_bool (5 # 10) x) with true; auto.
  symmetry. apply Qle_bool_iff.
  apply Qle_trans with (1 # 2)%Q; auto. discriminate.
Qed.

(** C7: when bin [S i] is the first one whose scaled intensity is below one
    half, [find_hwhm] returns the radius at which the line through that bin
    and bin [i], its predecessor, takes the value one half; on the profile
    1.0, 0.6, 0.4 at the radii 0, 3, 4 that is 3.5. *)
Theorem find_hwhm_interpolates :
  (forall self i r_more r_less I_more I_less,
      nth_error (scaled_profile self) (S i) = Some I_less ->
      (I_less < 1 # 2)%Q ->
      (forall j x, (j <= i)%nat ->
         nth_error (scaled_profile self) j = Some x -> (1 # 2 <= x)%Q) ->
      nth_error (scaled_profile self) i = Some I_more ->
      nth_error (ravg self) i = Some r_more ->
      nth_error (ravg self) (S i) = Some r_less ->
      exists r_half,
        find_hwhm self = Ok r_half
        /\ (r_half
            == r_less
               - (I_less - (1 # 2)) / (I_less - I_more) * (r_less - r_more))%Q
        /\ ((r_half - r_more) * (I_less - I_more)
            == ((1 # 2) - I_more) * (r_less - r_more))%Q)
  /\ exists r_half,
       find_hwhm three_bins = Ok r_half /\ (r_half == 7 # 2)%Q.
Proof.
  split.
  - intros self i r_more r_less I_more I_less Hless Hbelow Hbefore Hmore
           Hrm Hrl.
    destruct (first_selected (fun x => less_than x (5 # 10))
                (scaled_profile self) 0 (S i) I_less) as [rest Hfirst].
    { intros j x Hj Hx. apply less_than_half_false.
      apply (Hbefore j x); [ lia | exact Hx ]. }
    { exact Hless. }
    { now apply less_than_half_true. }
    assert (Hmore_ge : (1 # 2 <= I_more)%Q) by (apply (Hbefore i); auto).
    change (0 + S i)%nat with (S i) in Hfirst.
    unfold find_hwhm, arange. rewrite Hfirst, py_index_head. cbn [bind].
    replace (Z.of_nat (S i) - 1) with (Z.of_nat i) by lia.
    rewrite (py_index_nat _ _ _ Hrm). cbn [bind].
    rewrite (py_index_nat _ _ _ Hrl). cbn [bind].
    rewrite (py_index_nat _ _ _ Hmore). cbn [bind].
    rewrite (py_index_nat _ _ _ Hless). cbn [bind].
    eexists. split; [ reflexivity | ].
    assert (Hden : ~ (I_less - I_more == 0)%Q).
    { intro H0. apply (Qlt_irrefl I_less).
      apply Qlt_le_trans with (1 # 2)%Q; auto.
      apply Qle_trans with I_more; auto.
      setoid_replace I_more with (I_more + (I_less - I_more))%Q at 1
        by (rewrite H0; ring).
      ring_simplify. apply Qle_refl. }
    split.
    + setoid_replace (5 # 10)%Q with (1 # 2)%Q by reflexivity. reflexivity.
    + setoid_replace (5 # 10)%Q with (1 # 2)%Q by reflexivity.
      field. exact Hden.
  - eexists. split; [ vm_compute; reflexivity | reflexivity ].
Qed.

(** A profile whose first bin is already below one half: the index before it
    is -1, the last bin. *)
Lemma find_hwhm_first_bin_wraps :
  exists r_half,
    find_hwhm (mkRadialProfile [0; 1; 2]%Q [4 # 10; 3 # 10; 2 # 10]%Q)
    = Ok r_half
    /\ (r_half == 0 - ((4 # 10) - (1 # 2)) / ((4 # 10) - (2 # 10)) * (0 - 2))%Q.
Proof.
  eexists. split; [ vm_compute; reflexivity | reflexivity ].
Qed.

(** ** The default aperture radius *)

Lemma np_round_comp (x y : Q) : (x == y)%Q -> np_round x = np_round y.
Proof.
  intro H. unfold np_round. rewrite (Qfloor_comp _ _ H).
  rewrite (Qcompare_comp (x - inject_Z (Qfloor y))%Q
             (y - inject_Z (Qfloor y))%Q
             ltac:(now rewrite H) (1 # 2) (1 # 2) (Qeq_refl _)).
  reflexivity.
Qed.

Lemma np_round_inject_Z (z : Z) : np_round (inject_Z z) = z.
Proof.
  unfold np_round. rewrite Qfloor_Z.
  rewrite (Qcompare_comp (inject_Z z - inject_Z z)%Q 0%Q
             ltac:(ring) (1 # 2) (1 # 2) (Qeq_refl _)).
  reflexivity.
Qed.

(** C8, as the code has it: the radius set after a click is three times the
    half width, rounded; the full width it is taken from is not rounded
    first.  It is [round(1.5 * FWHM)] when twice the half width is an integer,
    which then is the FWHM. *)
Theorem click_aperture_radius :
  forall rad_prof hwhm,
    HWHM rad_prof = Ok hwhm ->
    show_event_aperture_radius rad_prof = Ok (np_round (3 * hwhm)%Q)
    /\ (forall fwhm,
          (2 * hwhm == inject_Z fwhm)%Q ->
          FWHM rad_prof = Ok fwhm
          /\ show_event_aperture_radius rad_prof
             = Ok (np_round ((15 # 10) * inject_Z fwhm)%Q)).
Proof.
  intros rad_prof hwhm H.
  unfold show_event_aperture_radius, FWHM, aperture_radius_of.
  rewrite H. cbn [bind]. split.
  - f_equal. apply np_round_comp. ring.
  - intros fwhm Hint. split; f_equal.
    + rewrite (np_round_comp _ _ Hint). apply np_round_inject_Z.
    + apply np_round_comp. rewrite <- Hint. ring.
Qed.

(** * The statements on sample inputs *)

Lemma mag_error_never_added_witness :
  has_col good_table "mag_error" = false
  /\ exists p,
       PhotometryData_init uncorrected greenwich unit_gain_camera good_table
         (Some []) false = Ok p
       /\ has_col (cols p) "mag_error" = false.
Proof.
  split; [ reflexivity | ].
  eexists. split; [ vm_compute; reflexivity | ].
  apply (mag_error_never_added uncorrected greenwich unit_gain_camera
           good_table (Some []) false);
    [ reflexivity | vm_compute; reflexivity ].
Defined.

Lemma mag_inst_overwritten_witness :
  exists p,
    PhotometryData_init uncorrected greenwich unit_gain_camera good_table
      (Some []) false = Ok p
    /\ lookup (cols p) "mag_inst"
       = Some (NumCol None
                 [error_of_snr (snr_of (F_lit 1) (F_lit 100) (F_lit 10))]).
Proof.
  eexists. split; [ vm_compute; reflexivity | ].
  destruct (proj1 (mag_inst_overwritten uncorrected) greenwich
              unit_gain_camera good_table [] false _
              ltac:(intros c Hin; simpl in Hin;
                    repeat (destruct Hin as [<- | Hin]; [ reflexivity | ]);
                    contradiction)
              eq_refl)
    as [cnts [noise [Hc [Hn Hmag]]]].
  vm_compute in Hc, Hn. inversion Hc. inversion Hn. subst cnts noise.
  exact Hmag.
Defined.

Lemma counts_units_check_witness :
  check_counts_units good_table = Ok tt
  /\ check_counts_units (one_row u_electron u_adu UTC)
     = Err (ValueError (InconsistentUnits "annulus_sum" "aperture_sum"
                          (Some u_electron) (Some u_adu)))
  /\ check_counts_units (setitem good_table "noise" (quantity_col u_ct 10))
     = Err (ValueError (InconsistentUnits "noise" "aperture_sum"
                          (Some u_adu) (Some u_ct))).
Proof.
  split; [ | split ].
  - apply (proj1 (counts_units_check uncorrected good_table
                    (fun _ => Some u_adu)
                    ltac:(intros c Hin; simpl in Hin;
                          repeat (destruct Hin as [<- | Hin];
                                  [ eexists; split; reflexivity | ]);
                          contradiction))).
    reflexivity.
  - apply (proj2 (counts_units_check uncorrected
                    (one_row u_electron u_adu UTC)
                    (fun c => if String.eqb c "aperture_sum"
                              then Some u_electron else Some u_adu)
                    ltac:(intros c Hin; simpl in Hin;
                          repeat (destruct Hin as [<- | Hin];
                                  [ eexists; split; reflexivity | ]);
                          contradiction))
             "aperture_sum" (Some u_adu)).
    + simpl. auto.
    + discriminate.
    + intros c Hin Hne. simpl in Hin.
      repeat (destruct Hin as [<- | Hin];
              [ try reflexivity; contradiction | ]).
      contradiction.
  - apply (proj2 (counts_units_check uncorrected
                    (setitem good_table "noise" (quantity_col u_ct 10))
                    (fun c => if String.eqb c "noise"
                              then Some u_ct else Some u_adu)
                    ltac:(intros c Hin; simpl in Hin;
                          repeat (destruct Hin as [<- | Hin];
                                  [ eexists; split; reflexivity | ]);
                          contradiction))
             "noise" (Some u_adu)).
    + simpl. auto 10.
    + discriminate.
    + intros c Hin Hne. simpl in Hin.
      repeat (destruct Hin as [<- | Hin];
              [ try reflexivity; contradiction | ]).
      contradiction.
Defined.

(** The sum in the aperture in electrons, the other six columns in adu: the
    error names annulus_sum. *)
Lemma aperture_sum_not_blamed :
  exists col should_be actual,
    PhotometryData_init uncorrected greenwich unit_gain_camera
      (one_row u_electron u_adu UTC) (Some []) false
    = Err (ValueError (InconsistentUnits col "aperture_sum" should_be actual))
    /\ col = "annulus_sum"
    /\ col <> "aperture_sum".
Proof.
  do 3 eexists. split; [ vm_compute; reflexivity | ].
  split; [ reflexivity | discriminate ].
Qed.

(** At longitude -100 the offset is -6 hours; the floor of -100/15 is -7.
    On the first day of the MJD count the cast toward zero gives night 0 on
    both sides of noon: 06:00 and 19:00 of MJD 0 at longitude 0. *)
Lemma western_offset_not_floor :
  hr_offset western_site = -6
  /\ Qfloor (lon western_site / 15) = -7
  /\ hr_offset western_site <> Qfloor (lon western_site / 15)
  /\ night_of 0 21600 = 0
  /\ night_of 0 (21600 + 46800) = 0.
Proof.
  repeat split. discriminate.
Qed.

Lemma night_binning_witness :
  night_of 0 (86400 * 60000 + 82800) = 60000
  /\ night_of 0 (86400 * 60000 + 82800 + 7200) = 60000
  /\ night_of 0 (86400 * 60001 + 21600) = 60001 - 1
  /\ night_of 0 (86400 * 60001 + 21600 + 46800) = 60001.
Proof.
  destruct night_binning as [_ [_ [_ [_ [_ [Hmidnight Hnoon]]]]]].
  destruct (Hmidnight 60000 (86400 * 60000 + 82800)) as [H1 H2]; [ lia | lia | ].
  destruct (Hnoon 60001 (86400 * 60001 + 21600)) as [H3 H4]; [ lia | lia | ].
  repeat split; assumption.
Defined.

Lemma non_utc_scale_rejected_witness :
  lookup (one_row u_adu u_adu TAI) "date-obs" = Some (TimeCol TAI [5184000000])
  /\ PhotometryData_init uncorrected greenwich unit_gain_camera
       (one_row u_adu u_adu TAI) (Some []) false
     = Err (ValueError (BadTimeScale TAI)).
Proof.
  split; [ reflexivity | ].
  apply (proj1 (proj2 (non_utc_scale_rejected uncorrected greenwich
                         unit_gain_camera (one_row u_adu u_adu TAI) (Some [])
                         false TAI [5184000000] eq_refl
                         ltac:(discriminate)))
           []);
    [ reflexivity | discriminate ].
Defined.

Lemma find_hwhm_interpolates_witness :
  exists r_half,
    find_hwhm three_bins = Ok r_half
    /\ (r_half == 4 - ((4 # 10) - (1 # 2)) / ((4 # 10) - (6 # 10)) * (4 - 3))%Q
    /\ ((r_half - 3) * ((4 # 10) - (6 # 10))
        == ((1 # 2) - (6 # 10)) * (4 - 3))%Q.
Proof.
  apply (proj1 find_hwhm_interpolates three_bins 1%nat 3%Q 4%Q (6 # 10) (4 # 10));
    try reflexivity.
  intros j x Hj Hx.
  destruct j as [ | [ | j ] ]; [ | | lia ]; inversion Hx; subst; discriminate.
Defined.

(** HWHM 1.2: the click gives radius 4, where the FWHM is 2 and
    round(1.5 * 2) is 3. *)
Lemma narrow_star_radius :
  show_event_aperture_radius narrow_star = Ok 4
  /\ FWHM narrow_star = Ok 2
  /\ np_round ((15 # 10) * inject_Z 2)%Q = 3.
Proof.
  repeat split.
Qed.

Lemma click_aperture_radius_witness :
  HWHM three_bins = Ok (7000 # 2000)
  /\ show_event_aperture_radius three_bins
     = Ok (np_round (3 * (7000 # 2000))%Q)
  /\ FWHM three_bins = Ok 7.
Proof.
  split; [ reflexivity | ].
  destruct (click_aperture_radius three_bins (7000 # 2000) eq_refl)
    as [Hradius Hfwhm].
  split; [ exact Hradius | ].
  apply (Hfwhm 7). reflexivity.
Defined.

(** A table made with [retain_user_computed=False] is refused when it is
    given to the constructor again, with an empty passband map as well as
    with the default one. *)
Lemma second_construction_refused :
  exists p,
    PhotometryData_init uncorrected greenwich unit_gain_camera good_table
      (Some []) false = Ok p
    /\ PhotometryData_init uncorrected greenwich unit_gain_camera (cols p)
         (Some []) false
       = Err (ValueError (ComputedExists "aperture_area"))
    /\ PhotometryData_init uncorrected greenwich unit_gain_camera (cols p)
         None false
       = Err (AttributeError "NoneType" "copy").
Proof.
  eexists. split; [ vm_compute; reflexivity | ].
  split; reflexivity.
Qed.

Lemma revalidation_witness :
  exists p p',
    PhotometryData_init uncorrected greenwich unit_gain_camera good_table
      (Some []) false = Ok p
    /\ PhotometryData_init uncorrected greenwich unit_gain_camera (cols p)
         (Some []) true = Ok p'
    /\ cols p' = cols p.
Proof.
  eexists.
  destruct (proj2 (revalidation uncorrected) greenwich unit_gain_camera
              good_table (Some []) false _ eq_refl)
    as [_ [p' [Hagain [Hcols _]]]].
  exists p'. split; [ reflexivity | split; [ exact Hagain | exact Hcols ] ].
Defined.

(** * Further properties of core.py *)

(** ** BaseEnhancedTable: what a passed validation means *)

Lemma col_unit_some_inv (c : column) (u : Unit) :
  col_unit c = Ok (Some u) -> exists vals, c = NumCol (Some u) vals.
Proof.
  destruct c as [[u0 | ] vals | vals | vals | scale vals]; simpl; intro H;
    try discriminate.
  inversion H. eauto.
Qed.

Lemma check_description_app (pre post : list (string * option Unit))
    (data : table) :
  check_description (pre ++ post) data
  = bind (check_description pre data)
         (fun _ => check_description post data).
Proof.
  induction pre as [ | [c [u | ]] rest IH ]; simpl; auto.
  destruct (getitem data c) as [col | [ | | | | | ]]; simpl; auto.
  destruct (col_unit col) as [r | e]; simpl; auto.
  destruct (opt_unit_eqb r (Some u)); simpl; auto.
Qed.

(** The validation passes exactly when every column that the description
    gives a unit is in the table as a quantity of that unit. *)
Theorem description_check_iff :
  forall (desc : list (string * option Unit)) (data : table),
    check_description desc data = Ok tt
    <-> (forall c u,
           In (c, Some u) desc ->
           exists vals, lookup data c = Some (NumCol (Some u) vals)).
Proof.
  intros desc data. induction desc as [ | [c0 [u0 | ]] rest IH ]; simpl.
  - split; [ intros _ c u [] | reflexivity ].
  - unfold getitem. split.
    + intros H c u [Heq | Hin].
      * inversion Heq. subst c0 u0.
        destruct (lookup data c) as [col | ]; [ | discriminate ].
        cbn [bind] in H.
        destruct (col_unit col) as [r | e] eqn:Hr; [ | discriminate ].
        cbn [bind] in H.
        destruct (opt_unit_eqb r (Some u)) eqn:E; [ | discriminate ].
        apply opt_unit_eqb_eq in E. subst r.
        destruct (col_unit_some_inv _ _ Hr) as [vals ->]. eauto.
      * apply IH; auto.
        destruct (lookup data c0) as [col | ]; [ | discriminate ].
        cbn [bind] in H.
        destruct (col_unit col) as [r | e]; [ | discriminate ].
        cbn [bind] in H.
        destruct (opt_unit_eqb r (Some u0)); [ exact H | discriminate ].
    + intro H. destruct (H c0 u0) as [vals Hl]; auto.
      rewrite Hl. simpl. rewrite (proj2 (unit_eqb_eq u0 u0) eq_refl). simpl.
      apply IH. intros c u Hin. apply H. auto.
  - rewrite IH. split; intros H c u.
    + intros [Heq | Hin]; [ discriminate | auto ].
    + intro Hin. apply H. auto.
Qed.

(** The first described column that is missing, or of another unit, is the
    one the error names. *)
Theorem description_first_failure :
  forall (pre post : list (string * option Unit)) (c : string) (u : Unit)
         (data : table),
    check_description pre data = Ok tt ->
    (lookup data c = None ->
     BaseEnhancedTable_init (pre ++ (c, Some u) :: post) data
     = Err (ValueError (MissingColumn c)))
    /\ (forall col reported,
          lookup data c = Some col ->
          col_unit col = Ok reported ->
          reported <> Some u ->
          BaseEnhancedTable_init (pre ++ (c, Some u) :: post) data
          = Err (ValueError (WrongUnit c u reported))).
Proof.
  intros pre post c u data Hpre.
  unfold BaseEnhancedTable_init. rewrite check_description_app, Hpre.
  cbn [bind check_description]. unfold getitem. split.
  - intros ->. reflexivity.
  - intros col reported -> Hr Hne. cbn [bind]. rewrite Hr. cbn [bind].
    now rewrite (opt_unit_eqb_neq _ _ Hne).
Qed.

Lemma description_first_failure_witness :
  BaseEnhancedTable_init phot_descript
    (setitem good_table "dec" (quantity_col u_pix 20))
  = Err (ValueError (WrongUnit "dec" u_deg (Some u_pix)))
  /\ BaseEnhancedTable_init [("id", None); ("ra", Some u_deg)] []
     = Err (ValueError (MissingColumn "ra")).
Proof.
  split.
  - apply (proj2 (description_first_failure
                    [("star_id", None); ("ra", Some u_deg)]
                    (skipn 3 phot_descript) "dec" u_deg
                    (setitem good_table "dec" (quantity_col u_pix 20))
                    eq_refl)
             (quantity_col u_pix 20) (Some u_pix));
      [ reflexivity | reflexivity | discriminate ].
  - apply (proj1 (description_first_failure [("id", None)] [] "ra" u_deg []
                    eq_refl)).
    reflexivity.
Defined.

(** ** PhotometryData: the loop over the computed columns *)

Lemma colnames_setitem (t : table) (name : string) (c : column) :
  colnames (setitem t name c)
  = if has_col t name then colnames t else (colnames t ++ [name])%list.
Proof.
  unfold colnames, has_col.
  induction t as [ | [k old] rest IH ]; simpl; auto.
  destruct (String.eqb k name) eqn:E; simpl; auto.
  rewrite IH. destruct (lookup rest name); reflexivity.
Qed.

Section Loop.

Variable barycentric_midpoint :
  EarthLocation -> list Z -> list float -> list float -> list float -> list Z.

Local Abbreviation init := (PhotometryData_init barycentric_midpoint).
Local Abbreviation column_arm := (compute_column barycentric_midpoint).
Local Abbreviation column_loop := (compute_columns barycentric_midpoint).

Lemma loop_cons_fresh observatory camera retain c rest self s :
  has_col self c = false ->
  column_loop observatory camera retain (c :: rest) self = Ok s ->
  exists s1,
    column_arm observatory camera self c = Ok s1
    /\ column_loop observatory camera retain rest s1 = Ok s.
Proof.
  intros Hc H. cbn [compute_columns] in H. rewrite Hc in H.
  now apply bind_ok_inv in H.
Qed.

Lemma arm_keeps_others observatory camera self c s1 name :
  column_arm observatory camera self c = Ok s1 ->
  String.eqb (written c) name = false ->
  lookup s1 name = lookup self name.
Proof.
  intros H Hne. apply compute_column_sets in H. destruct H as [col ->].
  now apply lookup_setitem_other.
Qed.

(** With [retain_user_computed=False] the loop gets through only when no
    column of the list is in the table it starts from, given that no earlier
    arm assigns it. *)
Lemma loop_refuses_present observatory camera :
  forall pre c post self s,
    column_loop observatory camera false (pre ++ c :: post) self = Ok s ->
    (forall c', In c' pre -> String.eqb (written c') c = false) ->
    has_col self c = false.
Proof.
  intros pre c post self s H Hpre.
  rewrite compute_columns_app in H. apply bind_ok_inv in H.
  destruct H as [s0 [H0 H1]].
  cbn [compute_columns negb] in H1.
  destruct (has_col s0 c) eqn:Hc; [ discriminate | ].
  unfold has_col in *.
  now rewrite <- (compute_columns_frame _ _ _ _ _ _ _ H0 c Hpre).
Qed.

Lemma fresh_input observatory camera data passband_map p :
  init observatory camera data passband_map false = Ok p ->
  forall c, In c computed_columns -> has_col data c = false.
Proof.
  intros Hinit c Hin. apply init_ok_inv in Hinit.
  destruct Hinit as [m [s [_ [_ [_ [_ [Hloop _]]]]]]].
  simpl in Hin.
  destruct Hin as [<- | [<- | [<- | [<- | [<- | [<- | [<- | []]]]]]]].
  - apply (loop_refuses_present _ _ [] _ (tl computed_columns) _ _ Hloop).
    intros c' [].
  - apply (loop_refuses_present _ _ (firstn 1 computed_columns) _
             (skipn 2 computed_columns) _ _ Hloop).
    intros c' Hc'. simpl in Hc'.
    repeat (destruct Hc' as [<- | Hc']; [ reflexivity | ]). contradiction.
  - apply (loop_refuses_present _ _ (firstn 2 computed_columns) _
             (skipn 3 computed_columns) _ _ Hloop).
    intros c' Hc'. simpl in Hc'.
    repeat (destruct Hc' as [<- | Hc']; [ reflexivity | ]). contradiction.
  - apply (loop_refuses_present _ _ (firstn 3 computed_columns) _
             (skipn 4 computed_columns) _ _ Hloop).
    intros c' Hc'. simpl in Hc'.
    repeat (destruct Hc' as [<- | Hc']; [ reflexivity | ]). contradiction.
  - apply (loop_refuses_present _ _ (firstn 4 computed_columns) _
             (skipn 5 computed_columns) _ _ Hloop).
    intros c' Hc'. simpl in Hc'.
    repeat (destruct Hc' as [<- | Hc']; [ reflexivity | ]). contradiction.
  - apply (loop_refuses_present _ _ (firstn 5 computed_columns) _
             (skipn 6 computed_columns) _ _ Hloop).
    intros c' Hc'. simpl in Hc'.
    repeat (destruct Hc' as [<- | Hc']; [ reflexivity | ]). contradiction.
  - apply (loop_refuses_present _ _ (firstn 6 computed_columns) _ [] _ _
             Hloop).
    intros c' Hc'. simpl in Hc'.
    repeat (destruct Hc' as [<- | Hc']; [ reflexivity | ]). contradiction.
Qed.

(** A column stays as it is when every entry of the list whose arm would
    assign it is in the table already. *)
Lemma compute_columns_keeps observatory camera retain todo :
  forall self s c,
    column_loop observatory camera retain todo self = Ok s ->
    (forall c', In c' todo -> String.eqb (written c') c = true ->
                has_col self c' = true) ->
    lookup s c = lookup self c.
Proof.
  induction todo as [ | c0 rest IH ]; intros self s c H Hguard.
  - now inversion H.
  - cbn [compute_columns] in H. destruct (has_col self c0) eqn:Hc0.
    + destruct retain; [ | discriminate ]. cbn [negb] in H.
      apply (IH _ _ _ H). intros c' Hin. apply Hguard. simpl. auto.
    + apply bind_ok_inv in H. destruct H as [s1 [H1 H2]].
      assert (Hne : String.eqb (written c0) c = false).
      { destruct (String.eqb (written c0) c) eqn:E; auto.
        rewrite (Hguard c0) in Hc0; [ discriminate | simpl; auto | exact E ]. }
      rewrite <- (arm_keeps_others _ _ _ _ _ _ H1 Hne).
      apply (IH _ _ _ H2). intros c' Hin Hw.
      apply compute_column_sets in H1. destruct H1 as [col ->].
      apply has_col_setitem_mono. apply Hguard; simpl; auto.
Qed.

(** The run of the loop on a table without computed columns, arm by arm. *)
Lemma fresh_loop_trace observatory camera retain data s :
  (forall c, In c computed_columns -> has_col data c = false) ->
  column_loop observatory camera retain computed_columns data = Ok s ->
  exists s1 s2 s3 s4 s5 s6,
    column_arm observatory camera data "aperture_area" = Ok s1
    /\ column_arm observatory camera s1 "annulus_area" = Ok s2
    /\ column_arm observatory camera s2 "snr" = Ok s3
    /\ column_arm observatory camera s3 "bjd" = Ok s4
    /\ column_arm observatory camera s4 "night" = Ok s5
    /\ column_arm observatory camera s5 "mag_inst" = Ok s6
    /\ column_arm observatory camera s6 "mag_error" = Ok s.
Proof.
  intros Hfresh H. unfold computed_columns in H.
  assert (F : forall n, In n computed_columns -> lookup data n = None).
  { intros n Hn. specialize (Hfresh n Hn). unfold has_col in Hfresh.
    destruct (lookup data n); [ discriminate | reflexivity ]. }
  destruct (loop_cons_fresh _ _ _ "aperture_area" _ _ _
              (Hfresh "aperture_area" ltac:(simpl; auto 10)) H)
    as [s1 [A1 H1]].
  assert (F1 : forall n, In n (skipn 1 computed_columns) -> lookup s1 n = None).
  { intros n Hn. rewrite <- (F n) by (simpl in Hn |- *; tauto).
    apply (arm_keeps_others _ _ _ _ _ _ A1). simpl in Hn.
    repeat (destruct Hn as [<- | Hn]; [ reflexivity | ]). contradiction. }
  destruct (loop_cons_fresh _ _ _ "annulus_area" _ s1 _
              ltac:(unfold has_col; rewrite F1 by (simpl; auto 10);
                    reflexivity) H1) as [s2 [A2 H2]].
  assert (F2 : forall n, In n (skipn 2 computed_columns) -> lookup s2 n = None).
  { intros n Hn. rewrite <- (F1 n) by (simpl in Hn |- *; tauto).
    apply (arm_keeps_others _ _ _ _ _ _ A2). simpl in Hn.
    repeat (destruct Hn as [<- | Hn]; [ reflexivity | ]). contradiction. }
  destruct (loop_cons_fresh _ _ _ "snr" _ s2 _
              ltac:(unfold has_col; rewrite F2 by (simpl; auto 10);
                    reflexivity) H2) as [s3 [A3 H3]].
  assert (F3 : forall n, In n (skipn 3 computed_columns) -> lookup s3 n = None).
  { intros n Hn. rewrite <- (F2 n) by (simpl in Hn |- *; tauto).
    apply (arm_keeps_others _ _ _ _ _ _ A3). simpl in Hn.
    repeat (destruct Hn as [<- | Hn]; [ reflexivity | ]). contradiction. }
  destruct (loop_cons_fresh _ _ _ "bjd" _ s3 _
              ltac:(unfold has_col; rewrite F3 by (simpl; auto 10);
                    reflexivity) H3) as [s4 [A4 H4]].
  assert (F4 : forall n, In n (skipn 4 computed_columns) -> lookup s4 n = None).
  { intros n Hn. rewrite <- (F3 n) by (simpl in Hn |- *; tauto).
    apply (arm_keeps_others _ _ _ _ _ _ A4). simpl in Hn.
    repeat (destruct Hn as [<- | Hn]; [ reflexivity | ]). contradiction. }
  destruct (loop_cons_fresh _ _ _ "night" _ s4 _
              ltac:(unfold has_col; rewrite F4 by (simpl; auto 10);
                    reflexivity) H4) as [s5 [A5 H5]].
  assert (F5 : forall n, In n (skipn 5 computed_columns) -> lookup s5 n = None).
  { intros n Hn. rewrite <- (F4 n) by (simpl in Hn |- *; tauto).
    apply (arm_keeps_others _ _ _ _ _ _ A5). simpl in Hn.
    repeat (destruct Hn as [<- | Hn]; [ reflexivity | ]). contradiction. }
  destruct (loop_cons_fresh _ _ _ "mag_inst" _ s5 _
              ltac:(unfold has_col; rewrite F5 by (simpl; auto 10);
                    reflexivity) H5) as [s6 [A6 H6]].
  assert (F6 : lookup s6 "mag_error" = None).
  { rewrite <- (F5 "mag_error") by (simpl; tauto).
    apply (arm_keeps_others _ _ _ _ _ _ A6). reflexivity. }
  destruct (loop_cons_fresh _ _ _ "mag_error" _ s6 _
              ltac:(unfold has_col; rewrite F6; reflexivity) H6)
    as [s7 [A7 H7]].
  cbn [compute_columns] in H7. inversion H7. subst s7.
  exists s1, s2, s3, s4, s5, s6. repeat split; assumption.
Qed.

End Loop.

(** ** PhotometryData: what a constructed table holds *)

Lemma described_quantity (desc : list (string * option Unit)) (data : table) :
  check_description desc data = Ok tt ->
  forall c u,
    In (c, Some u) desc ->
    exists vals, lookup data c = Some (NumCol (Some u) vals).
Proof.
  induction desc as [ | [c0 [u0 | ]] rest IH ]; simpl; intros H c u Hin.
  - contradiction.
  - unfold getitem in H.
    destruct (lookup data c0) as [col | ] eqn:Hl; [ | discriminate ].
    cbn [bind] in H.
    destruct (col_unit col) as [r | e] eqn:Hr; [ | discriminate ].
    cbn [bind] in H.
    destruct (opt_unit_eqb r (Some u0)) eqn:E; [ | discriminate ].
    destruct Hin as [Heq | Hin]; [ | now apply IH ].
    inversion Heq. subst c0 u0.
    apply opt_unit_eqb_eq in E. subst r.
    destruct (col_unit_some_inv _ _ Hr) as [vals ->]. eauto.
  - destruct Hin as [Heq | Hin]; [ discriminate | now apply IH ].
Qed.

Lemma update_passbands_colnames (m : list (string * string)) :
  forall self s, update_passbands m self = Ok s -> colnames s = colnames self.
Proof.
  induction m as [ | [orig_pb aavso_pb] rest IH ]; simpl; intros self s H.
  - now inversion H.
  - unfold getitem in H.
    destruct (lookup self "passband") as [c | ] eqn:Hl; [ | discriminate ].
    cbn [bind] in H. rewrite (IH _ _ H), colnames_setitem.
    unfold has_col. now rewrite Hl.
Qed.

Ltac member_of_list H :=
  simpl in H; repeat (destruct H as [<- | H]; [ reflexivity | ]);
  contradiction.

Section Built.

Variable barycentric_midpoint :
  EarthLocation -> list Z -> list float -> list float -> list float -> list Z.

Local Abbreviation init := (PhotometryData_init barycentric_midpoint).
Local Abbreviation column_arm := (compute_column barycentric_midpoint).
Local Abbreviation column_loop := (compute_columns barycentric_midpoint).

(** With the default [retain_user_computed=False] a table is constructed
    only from data that holds none of the seven computed columns; data with
    an aperture_area column that passes the checks is refused on account of
    that column. *)
Theorem default_construction_needs_fresh_data :
  forall observatory camera data passband_map,
    (forall p,
        init observatory camera data passband_map false = Ok p ->
        forall c, In c computed_columns -> has_col data c = false)
    /\ (forall m,
          passband_map = Some m ->
          check_time_scale data = Ok tt ->
          check_counts_units data = Ok tt ->
          check_description phot_descript data = Ok tt ->
          has_col data "aperture_area" = true ->
          init observatory camera data passband_map false
          = Err (ValueError (ComputedExists "aperture_area"))).
Proof.
  intros observatory camera data passband_map. split.
  - intros p H. exact (fresh_input _ _ _ _ _ _ H).
  - intros m -> Ht Hc Hd Ha.
    unfold PhotometryData_init, BaseEnhancedTable_init.
    rewrite Ht, Hc, Hd. cbn [bind]. unfold computed_columns.
    cbn [compute_columns]. now rewrite Ha.
Qed.

(** A table constructed with the default [retain_user_computed=False] holds
    every column of the data, but for the passband column, as it was given;
    with an empty passband map the passband column too. *)
Theorem input_columns_unchanged :
  forall observatory camera data passband_map p,
    init observatory camera data passband_map false = Ok p ->
    (forall name col,
        lookup data name = Some col -> name <> "passband" ->
        lookup (cols p) name = Some col)
    /\ (passband_map = Some [] ->
        lookup (cols p) "passband" = lookup data "passband").
Proof.
  intros observatory camera data passband_map p Hinit.
  pose proof (fresh_input _ _ _ _ _ _ Hinit) as Hfresh. split.
  - intros name col Hcol Hname. rewrite <- Hcol.
    apply (init_frame _ _ _ _ _ _ _ Hinit).
    intros a Ha. destruct (String.eqb a name) eqn:E; auto.
    apply String.eqb_eq in E. subst a. exfalso.
    unfold assigned_columns in Ha. simpl in Ha.
    assert (Hcase : In name computed_columns \/ name = "passband")
      by (simpl; intuition).
    destruct Hcase as [Hc | Hp]; [ | contradiction ].
    specialize (Hfresh name Hc). unfold has_col in Hfresh.
    rewrite Hcol in Hfresh. discriminate.
  - intros ->. apply init_ok_inv in Hinit.
    destruct Hinit as [m [s [Hm [_ [_ [_ [Hloop [Hpb _]]]]]]]].
    inversion Hm. subst m. simpl in Hpb. inversion Hpb as [Hs].
    rewrite <- Hs.
    apply (compute_columns_frame _ _ _ _ _ _ _ Hloop).
    intros c Hc. member_of_list Hc.
Qed.

(** With [retain_user_computed=True] a column aperture_area, annulus_area,
    snr, bjd, night or mag_error of the data is in the constructed table as
    it was given, and so is a mag_inst column when the data has a mag_error
    column as well. *)
Theorem retained_columns_kept :
  forall observatory camera data passband_map p,
    init observatory camera data passband_map true = Ok p ->
    (forall c,
        In c ["aperture_area"; "annulus_area"; "snr"; "bjd"; "night";
              "mag_error"] ->
        has_col data c = true ->
        lookup (cols p) c = lookup data c)
    /\ (has_col data "mag_inst" = true ->
        has_col data "mag_error" = true ->
        lookup (cols p) "mag_inst" = lookup data "mag_inst").
Proof.
  intros observatory camera data passband_map p Hinit.
  apply init_ok_inv in Hinit.
  destruct Hinit as [m [s [_ [_ [_ [_ [Hloop [Hpb _]]]]]]]].
  split.
  - intros c Hin Hc.
    rewrite (update_passbands_frame _ _ _ Hpb) by (member_of_list Hin).
    apply (compute_columns_keeps _ _ _ _ _ _ _ _ Hloop).
    intros c' Hc' Hw. simpl in Hin, Hc'.
    repeat (destruct Hin as [<- | Hin];
            [ repeat (destruct Hc' as [<- | Hc'];
                      [ first [ exact Hc | discriminate Hw ] | ]);
              contradiction | ]).
    contradiction.
  - intros Hmag Herr.
    rewrite (update_passbands_frame _ _ _ Hpb) by reflexivity.
    apply (compute_columns_keeps _ _ _ _ _ _ _ _ Hloop).
    intros c' Hc' Hw. simpl in Hc'.
    repeat (destruct Hc' as [<- | Hc'];
            [ first [ exact Hmag | exact Herr | discriminate Hw ] | ]).
    contradiction.
Qed.

(** Data without a mag_error column: whatever [retain_user_computed] is,
    and whether or not the data has a mag_inst column of its own, the
    mag_inst column of the constructed table is 1.085736205 over its snr
    column. *)
Theorem mag_inst_not_retained :
  forall observatory camera data passband_map retain_user_computed p,
    has_col data "mag_error" = false ->
    init observatory camera data passband_map retain_user_computed = Ok p ->
    exists col u vals,
      lookup (cols p) "snr" = Some col
      /\ col_numeric col = Ok (u, vals)
      /\ lookup (cols p) "mag_inst"
         = Some (NumCol (option_map (unit_pow (-1)) u)
                        (map error_of_snr vals)).
Proof.
  intros observatory camera data passband_map retain p Hno Hinit.
  apply init_ok_inv in Hinit.
  destruct Hinit as [m [s [_ [_ [_ [_ [Hloop [Hpb _]]]]]]]].
  change computed_columns
    with (removelast computed_columns ++ ["mag_error"])%list in Hloop.
  rewrite compute_columns_app in Hloop.
  apply bind_ok_inv in Hloop. destruct Hloop as [s6 [H6 H7]].
  assert (Hno6 : has_col s6 "mag_error" = false).
  { unfold has_col in *.
    rewrite (compute_columns_frame _ _ _ _ _ _ _ H6); [ exact Hno | ].
    intros c Hc. member_of_list Hc. }
  apply loop_cons_fresh in H7; [ | exact Hno6 ].
  destruct H7 as [s7 [H7 Heq]]. cbn [compute_columns] in Heq.
  inversion Heq. subst s7. clear Heq.
  apply mag_error_arm_inv in H7.
  destruct H7 as [col [u [vals [Hsnr [Hnum ->]]]]].
  exists col, u, vals. repeat split.
  - rewrite (update_passbands_frame _ _ _ Hpb) by reflexivity.
    now rewrite lookup_setitem_other by reflexivity.
  - exact Hnum.
  - rewrite (update_passbands_frame _ _ _ Hpb) by reflexivity.
    apply lookup_setitem_same.
Qed.

(** The constructor appends six columns to the columns of the data, in the
    order of the loop, and no seventh: the column names of a table
    constructed with [retain_user_computed=False] are those of the data
    followed by aperture_area, annulus_area, snr, bjd, night and mag_inst. *)
Theorem constructed_colnames :
  forall observatory camera data passband_map p,
    init observatory camera data passband_map false = Ok p ->
    colnames (cols p)
    = (colnames data
         ++ ["aperture_area"; "annulus_area"; "snr"; "bjd"; "night";
             "mag_inst"])%list.
Proof.
  intros observatory camera data passband_map p Hinit.
  pose proof (fresh_input _ _ _ _ _ _ Hinit) as Hfresh.
  apply init_ok_inv in Hinit.
  destruct Hinit as [m [s [_ [_ [_ [_ [Hloop [Hpb _]]]]]]]].
  rewrite (update_passbands_colnames _ _ _ Hpb).
  destruct (fresh_loop_trace _ _ _ _ _ _ Hfresh Hloop)
    as [s1 [s2 [s3 [s4 [s5 [s6 [A1 [A2 [A3 [A4 [A5 [A6 A7]]]]]]]]]]]].
  apply compute_column_sets in A1, A2, A3, A4, A5, A6, A7.
  destruct A1 as [c1 ->]. destruct A2 as [c2 ->]. destruct A3 as [c3 ->].
  destruct A4 as [c4 ->]. destruct A5 as [c5 ->]. destruct A6 as [c6 ->].
  destruct A7 as [c7 ->].
  unfold written. simpl String.eqb. cbv iota.
  rewrite !colnames_setitem.
  rewrite has_col_setitem_same.
  rewrite !has_col_setitem_other by reflexivity.
  rewrite !Hfresh by (simpl; auto 10).
  rewrite <- !app_assoc. reflexivity.
Qed.

End Built.


Section Formulas.

Variable barycentric_midpoint :
  EarthLocation -> list Z -> list float -> list float -> list float -> list Z.

Local Abbreviation init := (PhotometryData_init barycentric_midpoint).
Local Abbreviation column_arm := (compute_column barycentric_midpoint).
Local Abbreviation column_loop := (compute_columns barycentric_midpoint).

Lemma aperture_area_arm observatory camera self u r :
  lookup self "aperture" = Some (NumCol u r) ->
  column_arm observatory camera self "aperture_area"
  = Ok (setitem self "aperture_area"
          (NumCol (option_map (unit_pow 2) u) (map area_of r))).
Proof.
  intro H. unfold compute_column. simpl String.eqb. cbv iota.
  unfold getitem. rewrite H. reflexivity.
Qed.

Lemma annulus_area_arm observatory camera self u r_out r_in :
  lookup self "annulus_outer" = Some (NumCol u r_out) ->
  lookup self "annulus_inner" = Some (NumCol u r_in) ->
  column_arm observatory camera self "annulus_area"
  = Ok (setitem self "annulus_area"
          (NumCol (option_map (unit_pow 2) u)
                  (zip_with annulus_area_of r_out r_in))).
Proof.
  intros Ho Hi. unfold compute_column. simpl String.eqb. cbv iota.
  unfold getitem. rewrite Ho, Hi. cbn [bind col_numeric].
  now rewrite opt_unit_eqb_refl.
Qed.



(** In a table constructed with [retain_user_computed=False] the column
    aperture_area is pi times the square of the aperture column and the
    column annulus_area is pi times the difference of the squares of
    annulus_outer and annulus_inner, row by row, both in square pixels. *)
Theorem computed_areas :
  forall observatory camera data passband_map p,
    init observatory camera data passband_map false = Ok p ->
    exists r r_out r_in,
      lookup data "aperture" = Some (NumCol (Some u_pix) r)
      /\ lookup data "annulus_outer" = Some (NumCol (Some u_pix) r_out)
      /\ lookup data "annulus_inner" = Some (NumCol (Some u_pix) r_in)
      /\ lookup (cols p) "aperture_area"
         = Some (NumCol (Some (unit_pow 2 u_pix)) (map area_of r))
      /\ lookup (cols p) "annulus_area"
         = Some (NumCol (Some (unit_pow 2 u_pix))
                        (zip_with annulus_area_of r_out r_in)).
Proof.
  intros observatory camera data passband_map p Hinit.
  pose proof (fresh_input _ _ _ _ _ _ Hinit) as Hfresh.
  apply init_ok_inv in Hinit.
  destruct Hinit as [m [s [_ [_ [_ [Hd [Hloop [Hpb _]]]]]]]].
  destruct (described_quantity _ _ Hd "aperture" u_pix) as [r Hr];
    [ simpl; auto 20 | ].
  destruct (described_quantity _ _ Hd "annulus_outer" u_pix) as [r_out Ho];
    [ simpl; auto 20 | ].
  destruct (described_quantity _ _ Hd "annulus_inner" u_pix) as [r_in Hi];
    [ simpl; auto 20 | ].
  exists r, r_out, r_in. repeat (split; [ assumption | ]).
  destruct (fresh_loop_trace _ _ _ _ _ _ Hfresh Hloop)
    as [s1 [s2 [s3 [s4 [s5 [s6 [A1 [A2 [A3 [A4 [A5 [A6 A7]]]]]]]]]]]].
  rewrite (aperture_area_arm _ _ _ _ _ Hr) in A1. inversion A1 as [E1].
  rewrite (annulus_area_arm _ _ s1 (Some u_pix) r_out r_in) in A2.
  - inversion A2 as [E2]. split.
    + rewrite (update_passbands_frame _ _ _ Hpb) by reflexivity.
      rewrite (arm_keeps_others _ _ _ _ _ _ _ A7) by reflexivity.
      rewrite (arm_keeps_others _ _ _ _ _ _ _ A6) by reflexivity.
      rewrite (arm_keeps_others _ _ _ _ _ _ _ A5) by reflexivity.
      rewrite (arm_keeps_others _ _ _ _ _ _ _ A4) by reflexivity.
      rewrite (arm_keeps_others _ _ _ _ _ _ _ A3) by reflexivity.
      rewrite <- E2. rewrite lookup_setitem_other by reflexivity.
      rewrite <- E1. apply lookup_setitem_same.
    + rewrite (update_passbands_frame _ _ _ Hpb) by reflexivity.
      rewrite (arm_keeps_others _ _ _ _ _ _ _ A7) by reflexivity.
      rewrite (arm_keeps_others _ _ _ _ _ _ _ A6) by reflexivity.
      rewrite (arm_keeps_others _ _ _ _ _ _ _ A5) by reflexivity.
      rewrite (arm_keeps_others _ _ _ _ _ _ _ A4) by reflexivity.
      rewrite (arm_keeps_others _ _ _ _ _ _ _ A3) by reflexivity.
      rewrite <- E2. apply lookup_setitem_same.
  - rewrite <- E1. now rewrite lookup_setitem_other by reflexivity.
  - rewrite <- E1. now rewrite lookup_setitem_other by reflexivity.
Qed.

(** In a table constructed with [retain_user_computed=False] the snr column
    is a plain column of sqrt(gain) * aperture_net_cnts / noise, row by row;
    for gain 1, 100 net counts and noise 10 that is 10. *)
Theorem computed_snr :
  (forall observatory camera data passband_map p,
      init observatory camera data passband_map false = Ok p ->
      exists cnts noise,
        bind (getitem data "aperture_net_cnts") col_value = Ok cnts
        /\ bind (getitem data "noise") col_value = Ok noise
        /\ lookup (cols p) "snr"
           = Some (NumCol None
                     (zip_with (snr_of (value (gain camera))) cnts noise)))
  /\ denote (snr_of (F_lit 1) (F_lit 100) (F_lit 10)) = 10%R.
Proof.
  split.
  - intros observatory camera data passband_map p Hinit.
    pose proof (fresh_input _ _ _ _ _ _ Hinit) as Hfresh.
    apply init_ok_inv in Hinit.
    destruct Hinit as [m [s [_ [_ [_ [_ [Hloop [Hpb _]]]]]]]].
    destruct (fresh_loop_trace _ _ _ _ _ _ Hfresh Hloop)
      as [s1 [s2 [s3 [s4 [s5 [s6 [A1 [A2 [A3 [A4 [A5 [A6 A7]]]]]]]]]]]].
    apply snr_arm_inv in A3. destruct A3 as [cnts [noise [Hc [Hn E3]]]].
    exists cnts, noise. unfold getitem in *.
    rewrite (arm_keeps_others _ _ _ _ _ _ _ A2) in Hc by reflexivity.
    rewrite (arm_keeps_others _ _ _ _ _ _ _ A1) in Hc by reflexivity.
    rewrite (arm_keeps_others _ _ _ _ _ _ _ A2) in Hn by reflexivity.
    rewrite (arm_keeps_others _ _ _ _ _ _ _ A1) in Hn by reflexivity.
    split; [ exact Hc | split; [ exact Hn | ] ].
    rewrite (update_passbands_frame _ _ _ Hpb) by reflexivity.
    rewrite (arm_keeps_others _ _ _ _ _ _ _ A7) by reflexivity.
    rewrite (arm_keeps_others _ _ _ _ _ _ _ A6) by reflexivity.
    rewrite (arm_keeps_others _ _ _ _ _ _ _ A5) by reflexivity.
    rewrite (arm_keeps_others _ _ _ _ _ _ _ A4) by reflexivity.
    rewrite E3. apply lookup_setitem_same.
  - unfold snr_of. simpl denote.
    replace (Q2R 1) with 1%R by (unfold Q2R; simpl; lra).
    rewrite sqrt_1. unfold Q2R. simpl. lra.
Qed.


End Formulas.

(** ** PhotometryData: errors before the validation *)

(** A table without a date-obs column is refused with the [KeyError] of the
    lookup, a table whose date-obs column has no rows with the [IndexError]
    of its first entry, and a table that passes the check of the time scale
    but has no aperture_sum column with the [KeyError] of that lookup:
    none of these is the [ValueError] of a missing column. *)
Theorem construction_lookup_errors :
  forall barycentric_midpoint observatory camera data m retain_user_computed,
    (lookup data "date-obs" = None ->
     PhotometryData_init barycentric_midpoint observatory camera data (Some m)
       retain_user_computed = Err (KeyError "date-obs"))
    /\ (forall c,
          lookup data "date-obs" = Some c -> col_len c = 0%nat ->
          PhotometryData_init barycentric_midpoint observatory camera data
            (Some m) retain_user_computed = Err IndexError)
    /\ (check_time_scale data = Ok tt ->
        lookup data "aperture_sum" = None ->
        PhotometryData_init barycentric_midpoint observatory camera data
          (Some m) retain_user_computed = Err (KeyError "aperture_sum")).
Proof.
  intros bary observatory camera data m retain.
  unfold PhotometryData_init. split; [ | split ].
  - intro H. unfold check_time_scale, getitem. now rewrite H.
  - intros c H Hlen. unfold check_time_scale, getitem. rewrite H.
    destruct c as [u [ | ? ?] | [ | ? ?] | [ | ? ?] | scale [ | ? ?]];
      simpl in Hlen; try discriminate; reflexivity.
  - intros Ht H. rewrite Ht. cbn [bind].
    unfold check_counts_units, counts_columns, getitem. now rewrite H.
Qed.

(** ** update_passbands *)







(** ** The night of an observation, at any longitude *)

(** The hour offset of an observatory is between -12 and 12. *)
Theorem hr_offset_range :
  forall site,
    (-180 <= lon site)%Q -> (lon site <= 180)%Q ->
    -12 <= hr_offset site <= 12.
Proof.
  intros site Hlo Hhi. unfold hr_offset, Qtrunc.
  destruct (lon site) as [n d].
  assert (H1 : -180 * Z.pos d <= n) by (unfold Qle in Hlo; simpl in Hlo; lia).
  assert (H2 : n <= 180 * Z.pos d) by (unfold Qle in Hhi; simpl in Hhi; lia).
  cbn [Qdiv Qmult Qinv Qnum Qden]. rewrite Z.mul_1_r, Pos2Z.inj_mul.
  Z.to_euclidean_division_equations. nia.
Qed.

(** From the first local noon of the MJD count on, the night of an
    observation is the number of local noons that have passed, counted one
    higher at the offset of -12 hours: two observations get the same night
    exactly when no local noon lies between them. *)
Theorem night_counts_local_noons :
  forall offset t,
    -12 <= offset <= 12 ->
    43200 <= t + offset * 3600 ->
    night_of offset t
    = (t + offset * 3600 - 43200) / 86400 + (if offset =? -12 then 1 else 0)
    /\ forall t',
         43200 <= t' + offset * 3600 ->
         (night_of offset t = night_of offset t'
          <-> (t + offset * 3600 - 43200) / 86400
              = (t' + offset * 3600 - 43200) / 86400).
Proof.
  assert (Hval : forall offset t,
             -12 <= offset <= 12 ->
             43200 <= t + offset * 3600 ->
             night_of offset t
             = (t + offset * 3600 - 43200) / 86400
               + (if offset =? -12 then 1 else 0)).
  { intros offset t Hoff Ht. rewrite night_of_noon.
    destruct (offset =? -12) eqn:E;
      [ apply Z.eqb_eq in E | apply Z.eqb_neq in E ];
      Z.to_euclidean_division_equations; nia. }
  intros offset t Hoff Ht. split; [ now apply Hval | ].
  intros t' Ht'. rewrite !Hval by assumption. lia.
Qed.

(** * Further properties of seeing_profile_functions.py *)

(** ** find_hwhm *)

Lemma py_index_in_range {A : Type} (arr : list A) (i : Z) :
  - Z.of_nat (List.length arr) <= i < Z.of_nat (List.length arr) ->
  exists x, py_index arr i = Ok x.
Proof.
  intro H. unfold py_index.
  set (n := Z.of_nat (List.length arr)) in *.
  set (pos := if i <? 0 then n + i else i).
  assert (Hpos : 0 <= pos < n).
  { unfold pos. destruct (i <? 0) eqn:E;
      [ apply Z.ltb_lt in E | apply Z.ltb_ge in E ]; lia. }
  replace (0 <=? pos) with true by (symmetry; apply Z.leb_le; lia).
  replace (pos <? n) with true by (symmetry; apply Z.ltb_lt; lia).
  simpl. destruct (nth_error arr (Z.to_nat pos)) as [x | ] eqn:E; eauto.
  apply nth_error_None in E. unfold n in Hpos. lia.
Qed.

Lemma none_selected {A : Type} (f : A -> bool) :
  forall (arr : list A) (start : nat),
    (forall x, In x arr -> f x = false) ->
    mask_select (map Z.of_nat (seq start (List.length (map f arr))))
                (map f arr) = [].
Proof.
  induction arr as [ | x arr IH ]; intros start H; [ reflexivity | ].
  unfold mask_select in *. simpl. rewrite (H x) by (simpl; auto). simpl.
  apply IH. intros y Hy. apply H. simpl. auto.
Qed.

Lemma first_true_exists {A : Type} (f : A -> bool) :
  forall arr : list A,
    (exists x, In x arr /\ f x = true) ->
    exists i y,
      nth_error arr i = Some y /\ f y = true
      /\ forall j z, (j < i)%nat -> nth_error arr j = Some z -> f z = false.
Proof.
  induction arr as [ | x arr IH ]; intros [y [Hin Hy]]; [ contradiction | ].
  destruct (f x) eqn:Hx.
  - exists 0%nat, x. repeat split; auto. intros j z Hj. lia.
  - destruct Hin as [-> | Hin]; [ congruence | ].
    destruct (IH (ex_intro _ y (conj Hin Hy))) as [i [w [Hi [Hw Hbefore]]]].
    exists (S i), w. repeat split; auto.
    intros [ | j ] z Hj Hz.
    + simpl in Hz. inversion Hz. now subst.
    + apply (Hbefore j z); [ lia | exact Hz ].
Qed.

(** The value of [find_hwhm] when bin [S i] is the first one below one
    half. *)
Lemma find_hwhm_at self i r_more r_less I_more I_less :
  nth_error (scaled_profile self) (S i) = Some I_less ->
  (I_less < 1 # 2)%Q ->
  (forall j x, (j <= i)%nat ->
     nth_error (scaled_profile self) j = Some x -> (1 # 2 <= x)%Q) ->
  nth_error (scaled_profile self) i = Some I_more ->
  nth_error (ravg self) i = Some r_more ->
  nth_error (ravg self) (S i) = Some r_less ->
  find_hwhm self
  = Ok (r_less - (I_less - (5 # 10)) / (I_less - I_more) * (r_less - r_more))%Q.
Proof.
  intros Hless Hbelow Hbefore Hmore Hrm Hrl.
  destruct (first_selected (fun x => less_than x (5 # 10))
              (scaled_profile self) 0 (S i) I_less) as [rest Hfirst].
  { intros j x Hj Hx. apply less_than_half_false.
    apply (Hbefore j x); [ lia | exact Hx ]. }
  { exact Hless. }
  { now apply less_than_half_true. }
  change (0 + S i)%nat with (S i) in Hfirst.
  unfold find_hwhm, arange. rewrite Hfirst, py_index_head. cbn [bind].
  replace (Z.of_nat (S i) - 1) with (Z.of_nat i) by lia.
  rewrite (py_index_nat _ _ _ Hrm). cbn [bind].
  rewrite (py_index_nat _ _ _ Hrl). cbn [bind].
  rewrite (py_index_nat _ _ _ Hmore). cbn [bind].
  rewrite (py_index_nat _ _ _ Hless). reflexivity.
Qed.

(** When the average radius does not decrease from the last bin at or above
    one half to the first bin below it, the half width that [find_hwhm]
    returns lies between the two radii. *)
Theorem hwhm_between_bins :
  forall self i r_more r_less I_more I_less,
    nth_error (scaled_profile self) (S i) = Some I_less ->
    (I_less < 1 # 2)%Q ->
    (forall j x, (j <= i)%nat ->
       nth_error (scaled_profile self) j = Some x -> (1 # 2 <= x)%Q) ->
    nth_error (scaled_profile self) i = Some I_more ->
    nth_error (ravg self) i = Some r_more ->
    nth_error (ravg self) (S i) = Some r_less ->
    (r_more <= r_less)%Q ->
    exists r_half,
      find_hwhm self = Ok r_half
      /\ (r_more <= r_half)%Q /\ (r_half <= r_less)%Q.
Proof.
  intros self i r_more r_less I_more I_less Hless Hbelow Hbefore Hmore Hrm
         Hrl Hord.
  rewrite (find_hwhm_at _ _ _ _ _ _ Hless Hbelow Hbefore Hmore Hrm Hrl).
  eexists. split; [ reflexivity | ].
  assert (Hmore_ge : (1 # 2 <= I_more)%Q) by (apply (Hbefore i); auto).
  assert (Hden : (0 < I_more - I_less)%Q) by Lqa.lra.
  assert (Ht : ((I_less - (5 # 10)) / (I_less - I_more)
                == ((1 # 2) - I_less) / (I_more - I_less))%Q).
  { field. split; Lqa.lra. }
  assert (Ht0 : (0 <= ((1 # 2) - I_less) / (I_more - I_less))%Q).
  { apply Qle_shift_div_l; [ exact Hden | Lqa.lra ]. }
  assert (Ht1 : (((1 # 2) - I_less) / (I_more - I_less) <= 1)%Q).
  { apply Qle_shift_div_r; [ exact Hden | Lqa.lra ]. }
  rewrite Ht.
  set (t := (((1 # 2) - I_less) / (I_more - I_less))%Q) in *.
  split; Lqa.nra.
Qed.

(** With as many average radii as bins, [find_hwhm] raises the [IndexError]
    of an empty selection exactly when no bin is below one half, and it
    returns a half width when some bin is. *)
Theorem find_hwhm_fails_iff :
  forall self,
    List.length (ravg self) = List.length (scaled_profile self) ->
    (find_hwhm self = Err IndexError
     <-> forall x, In x (scaled_profile self) -> (1 # 2 <= x)%Q)
    /\ ((exists x, In x (scaled_profile self) /\ (x < 1 # 2)%Q) ->
        exists r_half, find_hwhm self = Ok r_half).
Proof.
  intros self Hlen.
  assert (Hsome : (exists x, In x (scaled_profile self) /\ (x < 1 # 2)%Q) ->
                  exists r_half, find_hwhm self = Ok r_half).
  { intros [x [Hin Hx]].
    destruct (first_true_exists (fun x => less_than x (5 # 10))
                (scaled_profile self)) as [i [y [Hi [Hy Hbefore]]]].
    { exists x. split; [ exact Hin | now apply less_than_half_true ]. }
    destruct (first_selected (fun x => less_than x (5 # 10))
                (scaled_profile self) 0 i y Hbefore Hi Hy) as [rest Hfirst].
    change (0 + i)%nat with i in Hfirst.
    assert (Hrange : (i < List.length (scaled_profile self))%nat)
      by (apply nth_error_Some; congruence).
    unfold find_hwhm, arange. rewrite Hfirst, py_index_head. cbn [bind].
    destruct (py_index_in_range (ravg self) (Z.of_nat i - 1)) as [a ->];
      [ lia | ].
    destruct (py_index_in_range (ravg self) (Z.of_nat i)) as [b ->];
      [ lia | ].
    destruct (py_index_in_range (scaled_profile self) (Z.of_nat i - 1))
      as [c ->]; [ lia | ].
    destruct (py_index_in_range (scaled_profile self) (Z.of_nat i))
      as [d ->]; [ lia | ].
    cbn [bind]. eauto. }
  split; [ | exact Hsome ].
  split.
  - intros Herr x Hin.
    destruct (Qlt_le_dec x (1 # 2)) as [Hlt | Hge]; [ | exact Hge ].
    destruct Hsome as [r Hr]; [ eauto | ]. congruence.
  - intro Hall. unfold find_hwhm, arange.
    rewrite none_selected; [ reflexivity | ].
    intros x Hin. apply less_than_half_false. now apply Hall.
Qed.

(** ** Rounding to pixels *)

Lemma np_round_near (x : Q) : (Qabs.Qabs (x - inject_Z (np_round x)) <= 1 # 2)%Q.
Proof.
  pose proof (Qfloor_le x) as Hlo. pose proof (Qlt_floor x) as Hhi.
  unfold np_round.
  rewrite inject_Z_plus in Hhi. change (inject_Z 1) with 1%Q in Hhi.
  apply Qabs.Qabs_Qle_condition.
  destruct (Qcompare_spec (x - inject_Z (Qfloor x)) (1 # 2)) as [E | E | E].
  - destruct (Z.even (Qfloor x));
      [ | rewrite inject_Z_plus; change (inject_Z 1) with 1%Q ];
      split; Lqa.lra.
  - split; Lqa.lra.
  - rewrite inject_Z_plus. change (inject_Z 1) with 1%Q. split; Lqa.lra.
Qed.

(** The FWHM is within half a pixel of twice the half width, the radius set
    after a click within half a pixel of three times the half width, and
    that radius is at most one pixel away from 1.5 times the FWHM, rounded. *)
Theorem rounded_widths :
  forall rad_prof hwhm,
    HWHM rad_prof = Ok hwhm ->
    exists fwhm radius,
      FWHM rad_prof = Ok fwhm
      /\ show_event_aperture_radius rad_prof = Ok radius
      /\ (Qabs.Qabs (2 * hwhm - inject_Z fwhm) <= 1 # 2)%Q
      /\ (Qabs.Qabs (3 * hwhm - inject_Z radius) <= 1 # 2)%Q
      /\ Z.abs (radius - np_round ((15 # 10) * inject_Z fwhm)%Q) <= 1.
Proof.
  intros rad_prof hwhm H.
  unfold FWHM, show_event_aperture_radius, aperture_radius_of.
  rewrite H. cbn [bind]. do 2 eexists.
  split; [ reflexivity | split; [ reflexivity | ] ].
  pose proof (np_round_near (2 * hwhm)%Q) as Hf.
  pose proof (np_round_near ((15 # 10) * 2 * hwhm)%Q) as Hr.
  pose proof (np_round_near
                ((15 # 10) * inject_Z (np_round (2 * hwhm)%Q))%Q) as Hc.
  set (f := np_round (2 * hwhm)%Q) in *.
  set (r := np_round ((15 # 10) * 2 * hwhm)%Q) in *.
  set (c := np_round ((15 # 10) * inject_Z f)%Q) in *.
  split; [ exact Hf | ].
  apply Qabs.Qabs_Qle_condition in Hf, Hr, Hc.
  split.
  - apply Qabs.Qabs_Qle_condition. split; Lqa.lra.
  - assert (Hq : (- (7 # 4) <= inject_Z (r - c) <= 7 # 4)%Q).
    { unfold Zminus. rewrite inject_Z_plus, inject_Z_opp. split; Lqa.lra. }
    destruct Hq as [Hq1 Hq2]. unfold Qle in Hq1, Hq2. simpl in Hq1, Hq2.
    lia.
Qed.

(** * Camera and CatalogData *)

(** A camera is made exactly from three quantities, which it holds as they
    were given; an argument without a unit is a [TypeError], the one for the
    gain first, then the one for the read noise; the copy of a camera is a
    camera equal to it. *)
Theorem camera_needs_units :
  forall gain read_noise dark_current : Catalog.camera_arg,
    (forall c,
        Catalog.Camera_init gain read_noise dark_current = Ok c
        <-> gain = Catalog.WithUnit (Core.gain c)
            /\ read_noise = Catalog.WithUnit (Core.read_noise c)
            /\ dark_current = Catalog.WithUnit (Core.dark_current c))
    /\ (forall x, gain = Catalog.Bare x ->
                  Catalog.Camera_init gain read_noise dark_current
                  = Err (TypeError "gain must have units."))
    /\ (forall g x, gain = Catalog.WithUnit g -> read_noise = Catalog.Bare x ->
                    Catalog.Camera_init gain read_noise dark_current
                    = Err (TypeError "read_noise must have units."))
    /\ (forall c, Catalog.Camera_copy_call c = Ok c /\ Camera_copy c = c).
Proof.
  intros g r d. repeat split.
  - destruct g, r, d; simpl in H; try discriminate. inversion H. reflexivity.
  - destruct g, r, d; simpl in H; try discriminate. inversion H. reflexivity.
  - destruct g, r, d; simpl in H; try discriminate. inversion H. reflexivity.
  - intros [-> [-> ->]]. destruct c. reflexivity.
  - intros x ->. reflexivity.
  - intros q x -> ->. reflexivity.
  - destruct c. reflexivity.
  - destruct c. reflexivity.
Qed.

(** ** Renaming catalog columns *)

Lemma absent_key (t : table) (name : string) :
  has_col t name = false -> forall entry, In entry t -> fst entry <> name.
Proof.
  unfold has_col. induction t as [ | [k c] rest IH ]; simpl; intros H entry Hin.
  - contradiction.
  - destruct (String.eqb k name) eqn:E; [ discriminate | ].
    destruct Hin as [<- | Hin].
    + simpl. now apply String.eqb_neq.
    + now apply IH.
Qed.

Section Renaming.

Variables (name new_name : string).

Let rename_entry (entry : string * column) : string * column :=
  if String.eqb (fst entry) name then (new_name, snd entry) else entry.

Lemma lookup_renamed_new (t : table) :
  has_col t new_name = false ->
  lookup (map rename_entry t) new_name = lookup t name.
Proof.
  intro H. pose proof (absent_key _ _ H) as Hkeys. clear H.
  induction t as [ | [k c] rest IH ]; simpl; [ reflexivity | ].
  unfold rename_entry at 1. simpl.
  destruct (String.eqb k name) eqn:E; simpl.
  - now rewrite String.eqb_refl.
  - assert (Hk : String.eqb k new_name = false)
      by (apply String.eqb_neq; apply (Hkeys (k, c)); simpl; auto).
    rewrite Hk. apply IH. intros entry Hin. apply Hkeys. simpl. auto.
Qed.

Lemma lookup_renamed_old (t : table) :
  String.eqb name new_name = false ->
  lookup (map rename_entry t) name = None.
Proof.
  intro Hne. induction t as [ | [k c] rest IH ]; simpl; [ reflexivity | ].
  unfold rename_entry at 1. simpl.
  destruct (String.eqb k name) eqn:E; simpl.
  - rewrite String.eqb_sym, Hne. exact IH.
  - rewrite E. exact IH.
Qed.

Lemma lookup_renamed_other (t : table) (other : string) :
  String.eqb name other = false ->
  String.eqb new_name other = false ->
  lookup (map rename_entry t) other = lookup t other.
Proof.
  intros H1 H2. induction t as [ | [k c] rest IH ]; simpl; [ reflexivity | ].
  unfold rename_entry at 1. simpl.
  destruct (String.eqb k name) eqn:E; simpl.
  - apply String.eqb_eq in E. subst k. now rewrite H1, H2.
  - now rewrite IH.
Qed.

End Renaming.

Lemma renamed_back (t : table) (name new_name : string) :
  has_col t new_name = false ->
  String.eqb name new_name = false ->
  map (fun entry => if String.eqb (fst entry) new_name
                    then (name, snd entry) else entry)
      (map (fun entry => if String.eqb (fst entry) name
                         then (new_name, snd entry) else entry) t)
  = t.
Proof.
  intros H Hne. pose proof (absent_key _ _ H) as Hkeys. clear H.
  induction t as [ | [k c] rest IH ]; simpl; [ reflexivity | ].
  rewrite IH by (intros entry Hin; apply Hkeys; simpl; auto).
  f_equal. destruct (String.eqb k name) eqn:E; simpl.
  - rewrite String.eqb_refl. apply String.eqb_eq in E. now subst.
  - assert (Hk : String.eqb k new_name = false)
      by (apply String.eqb_neq; apply (Hkeys (k, c)); simpl; auto).
    now rewrite Hk.
Qed.

Lemma rename_column_ok (t : table) (name new_name : string) :
  has_col t name = true ->
  String.eqb name new_name = false ->
  has_col t new_name = false ->
  Catalog.rename_column t name new_name
  = Ok (map (fun entry => if String.eqb (fst entry) name
                          then (new_name, snd entry) else entry) t).
Proof.
  intros H1 H2 H3. unfold Catalog.rename_column. now rewrite H1, H2, H3.
Qed.

(** A column map of one entry moves the column to its new name and leaves
    the others, in place; it is a [KeyError] when the column is not there
    and when another column has the new name. *)
Theorem update_colnames_one :
  forall (t : table) (orig_name new_name : string),
    (has_col t orig_name = true ->
     orig_name <> new_name ->
     has_col t new_name = false ->
     exists t',
       Catalog.update_colnames [(orig_name, new_name)] t = Ok t'
       /\ lookup t' new_name = lookup t orig_name
       /\ lookup t' orig_name = None
       /\ (forall other, other <> orig_name -> other <> new_name ->
                         lookup t' other = lookup t other)
       /\ List.length t' = List.length t)
    /\ (has_col t orig_name = false ->
        Catalog.update_colnames [(orig_name, new_name)] t
        = Err (KeyError ("Column " ++ orig_name ++ " does not exist")))
    /\ (has_col t orig_name = true ->
        orig_name <> new_name ->
        has_col t new_name = true ->
        Catalog.update_colnames [(orig_name, new_name)] t
        = Err (KeyError ("Column " ++ new_name ++ " already exists"))).
Proof.
  intros t orig_name new_name. split; [ | split ].
  - intros H1 Hne H3. apply String.eqb_neq in Hne.
    cbn [Catalog.update_colnames]. rewrite rename_column_ok by assumption.
    cbn [bind]. eexists. split; [ reflexivity | ].
    split; [ now apply lookup_renamed_new | ].
    split; [ now apply lookup_renamed_old | ].
    split; [ | apply length_map ].
    intros other Ho Hn. apply lookup_renamed_other.
    + apply String.eqb_neq. congruence.
    + apply String.eqb_neq. congruence.
  - intro H. cbn [Catalog.update_colnames]. unfold Catalog.rename_column.
    now rewrite H.
  - intros H1 Hne H3. apply String.eqb_neq in Hne.
    cbn [Catalog.update_colnames]. unfold Catalog.rename_column.
    now rewrite H1, Hne, H3.
Qed.

(** Renaming a column and renaming it back gives the table again. *)
Theorem update_colnames_round_trip :
  forall (t : table) (orig_name new_name : string),
    has_col t orig_name = true ->
    has_col t new_name = false ->
    Catalog.update_colnames [(orig_name, new_name); (new_name, orig_name)] t
    = Ok t.
Proof.
  intros t orig_name new_name H1 H3.
  assert (Hne : String.eqb orig_name new_name = false).
  { destruct (String.eqb orig_name new_name) eqn:E; auto.
    apply String.eqb_eq in E. subst. congruence. }
  cbn [Catalog.update_colnames]. rewrite rename_column_ok by assumption.
  cbn [bind]. rewrite rename_column_ok.
  - cbn [bind]. now rewrite renamed_back.
  - unfold has_col. rewrite lookup_renamed_new by assumption.
    unfold has_col in H1. destruct (lookup t orig_name); congruence.
  - now rewrite String.eqb_sym.
  - unfold has_col. now rewrite lookup_renamed_old.
Qed.

Lemma update_colnames_round_trip_witness :
  Catalog.update_colnames [("RAJ2000", "ra"); ("ra", "RAJ2000")] vizier_table
  = Ok vizier_table.
Proof.
  apply (update_colnames_round_trip vizier_table "RAJ2000" "ra");
    reflexivity.
Defined.

(** ** CatalogData *)

Lemma update_colnames_length (m : list (string * string)) :
  forall t t', Catalog.update_colnames m t = Ok t' ->
               List.length t' = List.length t.
Proof.
  induction m as [ | [o n] rest IH ]; simpl; intros t t' H.
  - now inversion H.
  - apply bind_ok_inv in H. destruct H as [t1 [H1 H2]].
    rewrite (IH _ _ H2). unfold Catalog.rename_column in H1.
    destruct (negb (has_col t o)); [ discriminate | ].
    destruct (String.eqb o n); [ now inversion H1 | ].
    destruct (has_col t n); [ discriminate | ].
    inversion H1. apply length_map.
Qed.

(** Without a column map and a passband map, a catalog is constructed
    exactly from data whose columns ra and dec are quantities in degrees,
    and its columns are the data as given. *)
Theorem catalog_default_construction :
  forall (data : table) (name data_source : string),
    ((exists c,
         Catalog.CatalogData_init data name data_source None None = Ok c)
     <-> (exists ra dec,
            lookup data "ra" = Some (NumCol (Some u_deg) ra)
            /\ lookup data "dec" = Some (NumCol (Some u_deg) dec)))
    /\ (forall c,
          Catalog.CatalogData_init data name data_source None None = Ok c ->
          Catalog.cat_cols c = data /\ Catalog._orig_data c = data).
Proof.
  intros data name data_source.
  unfold Catalog.CatalogData_init, BaseEnhancedTable_init. cbn [bind].
  split; [ split | ].
  - intros [c H].
    destruct (check_description Catalog.catalog_descript data) as [[] | ] eqn:Hd;
      [ | discriminate ].
    destruct (described_quantity _ _ Hd "ra" u_deg) as [ra Hra];
      [ simpl; auto | ].
    destruct (described_quantity _ _ Hd "dec" u_deg) as [dec Hdec];
      [ simpl; auto | ].
    eauto.
  - intros [ra [dec [Hra Hdec]]].
    unfold Catalog.catalog_descript. cbn [check_description].
    unfold getitem. rewrite Hra, Hdec. cbn. eauto.
  - intros c H.
    destruct (check_description Catalog.catalog_descript data) as [[] | ];
      [ | discriminate ].
    cbn [bind] in H. inversion H. split; reflexivity.
Qed.

(** A constructed catalog has as many columns as the data, under the names
    that the column map leaves, and its columns ra and dec are quantities in
    degrees. *)
Theorem catalog_columns :
  forall (data : table) (name data_source : string)
         (colname_map passband_map : option (list (string * string))) c,
    Catalog.CatalogData_init data name data_source colname_map passband_map
    = Ok c ->
    List.length (Catalog.cat_cols c) = List.length data
    /\ colnames (Catalog.cat_cols c) = colnames (Catalog._orig_data c)
    /\ exists ra dec,
         lookup (Catalog.cat_cols c) "ra" = Some (NumCol (Some u_deg) ra)
         /\ lookup (Catalog.cat_cols c) "dec" = Some (NumCol (Some u_deg) dec).
Proof.
  intros data name data_source colname_map passband_map c H.
  unfold Catalog.CatalogData_init, BaseEnhancedTable_init in H.
  apply bind_ok_inv in H. destruct H as [orig [Hren H]].
  destruct (check_description Catalog.catalog_descript orig) as [[] | ] eqn:Hd;
    [ | discriminate ].
  cbn [bind] in H. apply bind_ok_inv in H. destruct H as [self [Hpb H]].
  inversion H. subst c. clear H. cbn [Catalog.cat_cols Catalog._orig_data].
  assert (Hlen : List.length orig = List.length data).
  { destruct colname_map as [m | ].
    - now apply (update_colnames_length m).
    - now inversion Hren. }
  assert (Hnames : colnames self = colnames orig).
  { destruct passband_map as [m | ].
    - now apply (update_passbands_colnames m).
    - now inversion Hpb. }
  assert (Hframe : forall k, String.eqb "passband" k = false ->
                             lookup self k = lookup orig k).
  { intros k Hk. destruct passband_map as [m | ].
    - now apply (update_passbands_frame m).
    - now inversion Hpb. }
  split; [ | split; [ exact Hnames | ] ].
  - rewrite <- Hlen. unfold colnames in Hnames.
    rewrite <- (length_map fst self), Hnames. apply length_map.
  - destruct (described_quantity _ _ Hd "ra" u_deg) as [ra Hra];
      [ simpl; auto | ].
    destruct (described_quantity _ _ Hd "dec" u_deg) as [dec Hdec];
      [ simpl; auto | ].
    exists ra, dec. rewrite !Hframe by reflexivity. auto.
Qed.

Lemma catalog_columns_witness :
  exists c,
    Catalog.CatalogData_init vizier_table "APASS" "VizieR"
      (Some [("RAJ2000", "ra")]) (Some [("Bmag", "B"); ("Vmag", "V")]) = Ok c
    /\ colnames (Catalog.cat_cols c) = ["id"; "ra"; "dec"; "mag"; "passband"]
    /\ List.length (Catalog.cat_cols c) = List.length vizier_table.
Proof.
  eexists. split; [ vm_compute; reflexivity | ].
  split; [ reflexivity | ].
  apply (catalog_columns vizier_table "APASS" "VizieR"
           (Some [("RAJ2000", "ra")]) (Some [("Bmag", "B"); ("Vmag", "V")]) _
           eq_refl).
Defined.

(** * The radial profile *)

(** ** np.bincount *)

Lemma Qsum_add_at (k : nat) (w : Q) :
  forall bins, (Profile.Qsum (Profile.add_at k w bins) == w + Profile.Qsum bins)%Q.
Proof.
  induction k as [ | k IH ]; intros [ | b rest ]; simpl.
  - reflexivity.
  - ring.
  - rewrite IH. simpl. ring.
  - rewrite IH. ring.
Qed.

Lemma Qsum_bincount :
  forall (x : list nat) (weights : list Q),
    List.length x = List.length weights ->
    (Profile.Qsum (Profile.bincount x weights) == Profile.Qsum weights)%Q.
Proof.
  induction x as [ | k x IH ]; intros [ | w weights ] H; try discriminate.
  - reflexivity.
  - simpl. rewrite Qsum_add_at, IH by (simpl in H; lia). reflexivity.
Qed.

Lemma length_add_at (k : nat) (w : Q) :
  forall bins,
    List.length (Profile.add_at k w bins)
    = Nat.max (S k) (List.length bins).
Proof.
  induction k as [ | k IH ]; intros [ | b rest ]; simpl; rewrite ?IH;
    simpl; lia.
Qed.

Lemma length_bincount :
  forall (x : list nat) (weights : list Q),
    List.length x = List.length weights ->
    List.length (Profile.bincount x weights) = bins_needed x.
Proof.
  induction x as [ | k x IH ]; intros [ | w weights ] H; try discriminate.
  - reflexivity.
  - cbn [Profile.bincount].
    rewrite length_add_at, IH by (simpl in H; lia). reflexivity.
Qed.

Lemma length_zip_with {A B C : Type} (f : A -> B -> C) :
  forall (xs : list A) (ys : list B),
    List.length (zip_with f xs ys)
    = Nat.min (List.length xs) (List.length ys).
Proof.
  induction xs as [ | a xs IH ]; intros [ | b ys ]; simpl; auto.
Qed.

Lemma bins_needed_bound (x : list nat) :
  forall k, In k x -> (k < bins_needed x)%nat.
Proof.
  induction x as [ | k0 x IH ]; intros k Hin; [ contradiction | ].
  change (bins_needed (k0 :: x)) with (Nat.max (S k0) (bins_needed x)).
  destruct Hin as [<- | Hin]; [ lia | ]. specialize (IH k Hin). lia.
Qed.

Lemma length_indices (size : nat) :
  List.length (Profile.indices size) = (size * size)%nat.
Proof.
  unfold Profile.indices.
  assert (H : forall rows : list nat,
             List.length
               (flat_map (fun yd => map (fun xd => (Z.of_nat xd, Z.of_nat yd))
                                        (seq 0 size)) rows)
             = (List.length rows * size)%nat).
  { induction rows as [ | r rows IH ]; simpl; auto.
    rewrite length_app, length_map, length_seq, IH. reflexivity. }
  rewrite H, length_seq. reflexivity.
Qed.

Section Profiles.

Variable image : Type.
Variable Cutout2D :
  image -> Q * Q -> nat -> Profile.cutout_mode -> option Profile.Cutout.
Variable np_sqrt : Q -> Q.

Local Abbreviation radial_profile :=
  (Profile.radial_profile image Cutout2D np_sqrt).

(** How [radial_profile] comes to a result. *)
Lemma radial_profile_inv data center size return_scaled r_exact ravg prof :
  radial_profile data center size return_scaled = Profile.Fine (r_exact, ravg, prof) ->
  exists position sub_image r,
    center = Some position
    /\ Cutout2D data position size Profile.Strict = Some sub_image
    /\ r = map (fun v => Z.to_nat (Qtrunc v)) r_exact
    /\ List.length r_exact = (size * size)%nat
    /\ List.length (List.concat (Profile.cutout_data sub_image))
       = (size * size)%nat
    /\ (ravg, prof)
       = if return_scaled
         then (zip_with Qdiv (Profile.bincount r r_exact)
                             (Profile.bincount_plain r),
               zip_with Qdiv
                 (Profile.bincount r
                    (List.concat (Profile.cutout_data sub_image)))
                 (Profile.bincount_plain r))
         else (Profile.bincount r r_exact,
               Profile.bincount r
                 (List.concat (Profile.cutout_data sub_image))).
Proof.
  unfold Profile.radial_profile. intro H.
  destruct center as [position | ]; [ | discriminate ].
  destruct (Cutout2D data position size Profile.Strict) as [sub_image | ]
    eqn:Hcut; [ | discriminate ].
  unfold Profile.bincount_weights in H. rewrite !length_map in H.
  rewrite length_indices in H.
  destruct (Nat.eqb (size * size)
              (List.length (List.concat (Profile.cutout_data sub_image))))
    eqn:Hlen; [ | discriminate ].
  cbn [Profile.and_then] in H. rewrite Nat.eqb_refl in H.
  cbn [Profile.and_then] in H. apply Nat.eqb_eq in Hlen.
  exists position, sub_image.
  destruct return_scaled; inversion H; subst; eexists;
    (split; [ reflexivity | ]); (split; [ exact Hcut | ]);
    (split; [ reflexivity | ]);
    (split; [ now rewrite length_map, length_indices | ]);
    (split; [ now symmetry | reflexivity ]).
Qed.

(** With [return_scaled=False] the bins of [radial_profile] add up to the
    sum of the pixels of the cutout, and the binned radii to the sum of the
    radii of the pixels: no pixel is lost and none is counted twice. *)
Theorem radial_profile_keeps_counts :
  forall data center size r_exact ravg prof,
    radial_profile data center size false = Profile.Fine (r_exact, ravg, prof) ->
    exists position sub_image,
      center = Some position
      /\ Cutout2D data position size Profile.Strict = Some sub_image
      /\ (Profile.Qsum prof
          == Profile.Qsum (List.concat (Profile.cutout_data sub_image)))%Q
      /\ (Profile.Qsum ravg == Profile.Qsum r_exact)%Q.
Proof.
  intros data center size r_exact ravg prof H.
  destruct (radial_profile_inv _ _ _ _ _ _ _ H)
    as [position [sub_image [r [Hc [Hcut [Hr [Hn [Hm E]]]]]]]].
  inversion E. subst ravg prof. clear E.
  exists position, sub_image. repeat split; auto.
  - apply Qsum_bincount. subst r. rewrite length_map. lia.
  - apply Qsum_bincount. subst r. now rewrite length_map.
Qed.

(** [radial_profile] returns as many average radii as bins of the profile,
    one radius for each of the size * size pixels, and one bin more than the
    largest integer radius, so that the integer radius of every pixel is
    the number of a bin. *)
Theorem radial_profile_aligned :
  forall data center size return_scaled r_exact ravg prof,
    radial_profile data center size return_scaled
    = Profile.Fine (r_exact, ravg, prof) ->
    List.length ravg = List.length prof
    /\ List.length r_exact = (size * size)%nat
    /\ List.length prof
       = bins_needed (map (fun v => Z.to_nat (Qtrunc v)) r_exact)
    /\ forall v, In v r_exact ->
                 (Z.to_nat (Qtrunc v) < List.length prof)%nat.
Proof.
  intros data center size return_scaled r_exact ravg prof H.
  destruct (radial_profile_inv _ _ _ _ _ _ _ H)
    as [position [sub_image [r [Hc [Hcut [Hr [Hn [Hm E]]]]]]]].
  assert (Hlen_r : List.length r = (size * size)%nat)
    by (subst r; now rewrite length_map).
  assert (Ht : List.length
                 (Profile.bincount r
                    (List.concat (Profile.cutout_data sub_image)))
               = bins_needed r) by (apply length_bincount; lia).
  assert (Hb : List.length (Profile.bincount r r_exact) = bins_needed r)
    by (apply length_bincount; lia).
  assert (Hp : List.length (Profile.bincount_plain r) = bins_needed r)
    by (apply length_bincount; now rewrite repeat_length).
  assert (Hlens : List.length ravg = bins_needed r
                  /\ List.length prof = bins_needed r).
  { destruct return_scaled; inversion E; subst ravg prof;
      rewrite ?length_zip_with, ?Ht, ?Hb, ?Hp; lia. }
  destruct Hlens as [Ha Hpf]. subst r.
  repeat split; try congruence.
  intros v Hv. rewrite Hpf. apply bins_needed_bound.
  apply (in_map (fun v => Z.to_nat (Qtrunc v))). exact Hv.
Qed.

End Profiles.

(** ** RadialProfile.profile *)

Lemma fold_largest (rest : list Q) :
  forall first : Q,
    let m := fold_left (fun m v => if Qle_bool m v then v else m) rest first in
    (first <= m)%Q
    /\ (forall v, In v rest -> (v <= m)%Q)
    /\ (m = first \/ In m rest).
Proof.
  induction rest as [ | v rest IH ]; intro first; simpl.
  - split; [ apply Qle_refl | split; [ intros v [] | auto ] ].
  - destruct (Qle_bool first v) eqn:E.
    + apply Qle_bool_iff in E.
      destruct (IH v) as [H1 [H2 H3]]. split; [ | split ].
      * now apply Qle_trans with v.
      * intros w [<- | Hw]; auto.
      * destruct H3 as [-> | H3]; auto.
    + assert (Hlt : (v <= first)%Q).
      { destruct (Qlt_le_dec first v) as [Hl | Hl]; auto.
        apply Qlt_le_weak in Hl. apply Qle_bool_iff in Hl. congruence. }
      destruct (IH first) as [H1 [H2 H3]]. split; [ | split ]; auto.
      * intros w [<- | Hw]; auto. now apply Qle_trans with first.
      * destruct H3 as [-> | H3]; auto.
Qed.

Lemma np_max_greatest (arr : list Q) (peak : Q) :
  Profile.np_max arr = Profile.Fine peak ->
  In peak arr /\ forall v, In v arr -> (v <= peak)%Q.
Proof.
  destruct arr as [ | first rest ]; simpl; intro H; [ discriminate | ].
  inversion H as [Hp].
  destruct (fold_largest rest first) as [H1 [H2 H3]].
  split.
  - destruct H3 as [-> | H3]; auto.
  - intros v [<- | Hv]; auto.
Qed.

Lemma half_or_more (x : Q) : less_than x (5 # 10) = false -> (1 # 2 <= x)%Q.
Proof.
  unfold less_than. intro H.
  destruct (Qle_bool (5 # 10) x) eqn:E; [ | discriminate ].
  apply Qle_bool_iff in E. apply Qle_trans with (5 # 10)%Q; auto.
  discriminate.
Qed.

Lemma below_half (x : Q) : less_than x (5 # 10) = true -> (x < 1 # 2)%Q.
Proof.
  unfold less_than. intro H.
  destruct (Qle_bool (5 # 10) x) eqn:E; [ discriminate | ].
  destruct (Qlt_le_dec x (1 # 2)) as [Hl | Hl]; auto.
  assert (Hc : (5 # 10 <= x)%Q)
    by (apply Qle_trans with (1 # 2)%Q; auto; discriminate).
  apply Qle_bool_iff in Hc. congruence.
Qed.

Section Normalised.

Variable image : Type.
Variable Cutout2D :
  image -> Q * Q -> nat -> Profile.cutout_mode -> option Profile.Cutout.
Variable np_sqrt : Q -> Q.

Local Abbreviation radial_profile :=
  (Profile.radial_profile image Cutout2D np_sqrt).
Local Abbreviation profile := (Profile.profile image Cutout2D np_sqrt).

Lemma radial_profile_same_length data center size return_scaled r_exact ravg
    prof :
  radial_profile data center size return_scaled
  = Profile.Fine (r_exact, ravg, prof) ->
  List.length ravg = List.length prof.
Proof.
  intro H.
  destruct (radial_profile_inv _ _ _ _ _ _ _ _ _ _ H)
    as [position [sub_image [r [Hc [Hcut [Hr [Hn [Hm E]]]]]]]].
  assert (Hlen_r : List.length r = (size * size)%nat)
    by (subst r; now rewrite length_map).
  assert (Ht : List.length
                 (Profile.bincount r
                    (List.concat (Profile.cutout_data sub_image)))
               = bins_needed r) by (apply length_bincount; lia).
  assert (Hb : List.length (Profile.bincount r r_exact) = bins_needed r)
    by (apply length_bincount; lia).
  assert (Hp : List.length (Profile.bincount_plain r) = bins_needed r)
    by (apply length_bincount; now rewrite repeat_length).
  destruct return_scaled; inversion E; subst ravg prof;
    rewrite ?length_zip_with, ?Ht, ?Hb, ?Hp; lia.
Qed.

(** How [profile] comes to a result. *)
Lemma profile_inv self size p :
  profile self size = Profile.Fine p ->
  exists position sub_image peak,
    Profile._cen image self = Some position
    /\ Cutout2D (Profile._data image self) position size Profile.Trim
       = Some sub_image
    /\ radial_profile (Profile._data image self) (Profile._cen image self)
         size true
       = Profile.Fine (Profile.r_exact p, Profile.ravg p,
                       Profile.radialprofile p)
    /\ Profile.np_max (Profile.radialprofile p) = Profile.Fine peak
    /\ Profile.sub_data p = Profile.cutout_data sub_image
    /\ Profile.scaled_profile p
       = map (fun v => (v - Profile.np_median
                              (List.concat (Profile.sub_data p)))
                       / (peak - Profile.np_median
                                   (List.concat (Profile.sub_data p))))%Q
             (Profile.radialprofile p).
Proof.
  unfold Profile.profile. intro H.
  destruct (Profile.radial_profile image Cutout2D np_sqrt
              (Profile._data image self) (Profile._cen image self) size true)
    as [[[r_exact ravg] prof] | ] eqn:Hrp; [ | discriminate ].
  cbn [Profile.and_then] in H.
  destruct (Profile._cen image self) as [position | ]; [ | discriminate ].
  destruct (Cutout2D (Profile._data image self) position size Profile.Trim)
    as [sub_image | ] eqn:Hcut; [ | discriminate ].
  destruct (Profile.np_max prof) as [peak | ] eqn:Hmax; [ | discriminate ].
  cbn [Profile.and_then] in H. inversion H. subst p. simpl.
  exists position, sub_image, peak. repeat split; auto.
Qed.

(** After [profile], the scaled profile has one entry for each average
    radius; when the largest bin is above the median of the cutout, no entry
    of the scaled profile is above 1, the largest bin is scaled to 1, and
    the scaling keeps the order of the bins. *)
Theorem profile_normalised :
  forall self size p,
    profile self size = Profile.Fine p ->
    exists peak,
      Profile.np_max (Profile.radialprofile p) = Profile.Fine peak
      /\ List.length (Profile.scaled_profile p)
         = List.length (Profile.ravg p)
      /\ ((Profile.np_median (List.concat (Profile.sub_data p)) < peak)%Q ->
          (forall v, In v (Profile.scaled_profile p) -> (v <= 1)%Q)
          /\ (exists v, In v (Profile.scaled_profile p) /\ (v == 1)%Q)
          /\ (forall i j a b sa sb,
                nth_error (Profile.radialprofile p) i = Some a ->
                nth_error (Profile.radialprofile p) j = Some b ->
                nth_error (Profile.scaled_profile p) i = Some sa ->
                nth_error (Profile.scaled_profile p) j = Some sb ->
                (a <= b)%Q -> (sa <= sb)%Q)).
Proof.
  intros self size p H.
  destruct (profile_inv _ _ _ H)
    as [position [sub_image [peak [Hc [Hcut [Hrp [Hmax [Hsub Hsc]]]]]]]].
  exists peak. split; [ exact Hmax | ].
  split.
  - rewrite Hsc, length_map.
    symmetry. apply (radial_profile_same_length _ _ _ _ _ _ _ Hrp).
  - intro Hpos. set (med := Profile.np_median _) in *.
    destruct (np_max_greatest _ _ Hmax) as [Hin Hge].
    assert (Hden : (0 < peak - med)%Q) by Lqa.lra.
    rewrite Hsc. split; [ | split ].
    + intros v Hv. apply in_map_iff in Hv. destruct Hv as [a [<- Ha]].
      apply Qle_shift_div_r; [ exact Hden | ].
      specialize (Hge a Ha). Lqa.lra.
    + exists ((peak - med) / (peak - med))%Q. split.
      * apply (in_map (fun v => (v - med) / (peak - med))%Q). exact Hin.
      * field. Lqa.lra.
    + intros i j a b sa sb Ha Hb Hsa Hsb Hab.
      rewrite nth_error_map, Ha in Hsa. rewrite nth_error_map, Hb in Hsb.
      inversion Hsa. inversion Hsb.
      apply Qle_shift_div_l; [ exact Hden | ].
      setoid_replace ((a - med) / (peak - med) * (peak - med))%Q
        with (a - med)%Q by (field; Lqa.lra).
      Lqa.lra.
Qed.

(** After [profile], when the first bin is the largest one, lies above the
    median of the cutout, and some bin is scaled below one half, [find_hwhm]
    finds the half width between two neighbouring bins [i] and [S i], the
    first of them at or above one half and the second below it: the index
    before the first bin below one half is never -1. *)
Theorem profile_then_hwhm :
  forall self size p peak first,
    profile self size = Profile.Fine p ->
    Profile.np_max (Profile.radialprofile p) = Profile.Fine peak ->
    (Profile.np_median (List.concat (Profile.sub_data p)) < peak)%Q ->
    nth_error (Profile.radialprofile p) 0 = Some first ->
    (first == peak)%Q ->
    (exists v, In v (Profile.scaled_profile p) /\ (v < 1 # 2)%Q) ->
    exists i r_more r_less I_more I_less,
      nth_error (Profile.ravg p) i = Some r_more
      /\ nth_error (Profile.ravg p) (S i) = Some r_less
      /\ nth_error (Profile.scaled_profile p) i = Some I_more
      /\ nth_error (Profile.scaled_profile p) (S i) = Some I_less
      /\ (1 # 2 <= I_more)%Q
      /\ (I_less < 1 # 2)%Q
      /\ find_hwhm (Profile.measured p)
         = Ok (r_less
               - (I_less - (5 # 10)) / (I_less - I_more) * (r_less - r_more))%Q.
Proof.
  intros self size p peak first H Hmax Hpos Hfirst Hpeak [v [Hv Hlow]].
  destruct (profile_inv _ _ _ H)
    as [position [sub_image [peak' [Hc [Hcut [Hrp [Hmax' [Hsub Hsc]]]]]]]].
  rewrite Hmax in Hmax'. inversion Hmax'. subst peak'. clear Hmax'.
  set (med := Profile.np_median _) in *.
  pose proof (radial_profile_same_length _ _ _ _ _ _ _ Hrp) as Hlen.
  destruct (first_true_exists (fun x => less_than x (5 # 10))
              (Profile.scaled_profile p)) as [i0 [y [Hi [Hy Hbefore]]]].
  { exists v. split; [ exact Hv | now apply less_than_half_true ]. }
  assert (Hzero : nth_error (Profile.scaled_profile p) 0
                  = Some ((first - med) / (peak - med))%Q).
  { rewrite Hsc, nth_error_map, Hfirst. reflexivity. }
  assert (Hone : (1 # 2 <= (first - med) / (peak - med))%Q).
  { apply Qle_shift_div_l; Lqa.lra. }
  destruct i0 as [ | i ].
  { rewrite Hzero in Hi. inversion Hi. subst y.
    apply below_half in Hy. Lqa.lra. }
  assert (Hrange : (S i < List.length (Profile.scaled_profile p))%nat)
    by (apply nth_error_Some; congruence).
  assert (Hsame : List.length (Profile.scaled_profile p)
                  = List.length (Profile.ravg p))
    by (rewrite Hsc, length_map; lia).
  destruct (nth_error (Profile.scaled_profile p) i) as [I_more | ] eqn:Hmore;
    [ | apply nth_error_None in Hmore; lia ].
  destruct (nth_error (Profile.ravg p) i) as [r_more | ] eqn:Hrm;
    [ | apply nth_error_None in Hrm; lia ].
  destruct (nth_error (Profile.ravg p) (S i)) as [r_less | ] eqn:Hrl;
    [ | apply nth_error_None in Hrl; lia ].
  assert (Hge : forall j x, (j <= i)%nat ->
                  nth_error (Profile.scaled_profile p) j = Some x ->
                  (1 # 2 <= x)%Q).
  { intros j x Hj Hx. apply half_or_more.
    apply (Hbefore j x); [ lia | exact Hx ]. }
  exists i, r_more, r_less, I_more, y.
  repeat (split; [ first [ assumption | reflexivity ] | ]).
  split; [ now apply (Hge i) | ].
  split; [ now apply below_half | ].
  apply (find_hwhm_at (Profile.measured p) i r_more r_less I_more y);
    auto.
  now apply below_half.
Qed.

End Normalised.

(** * find_center *)

Lemma largest_bounds (a b : Q) :
  (a <= Profile.largest a b)%Q /\ (b <= Profile.largest a b)%Q.
Proof.
  unfold Profile.largest. destruct (Qle_bool a b) eqn:E.
  - apply Qle_bool_iff in E. split; [ exact E | apply Qle_refl ].
  - split; [ apply Qle_refl | ].
    destruct (Qlt_le_dec a b) as [Hl | Hl]; auto.
    apply Qlt_le_weak in Hl. apply Qle_bool_iff in Hl. congruence.
Qed.


Lemma is_less_than (x y : Q) : (x < y)%Q -> less_than x y = true.
Proof.
  intro H. unfold less_than. destruct (Qle_bool y x) eqn:E; auto.
  apply Qle_bool_iff in E. exfalso. apply (Qlt_irrefl x).
  now apply Qlt_le_trans with y.
Qed.

Section Centring.

Variable image : Type.
Variable centroid_com : image -> Z -> Z -> Z -> bool -> option (Q * Q).

Local Abbreviation find_center_loop :=
  (Profile.find_center_loop image centroid_com).
Local Abbreviation find_center := (Profile.find_center image centroid_com).

(** The centroid of a state is the masked one of its cutout. *)
Local Abbreviation refined data pad s :=
  (centroid_com data (Profile.x s) (Profile.y s) pad true
   = Some (Profile.x_cm s, Profile.y_cm s)).



(** A first centroid that is nan is returned as a nan position, without an
    error; a nan centroid in the first round of the loop, which is run
    whenever [max_iters] is not negative and the first centre is not at
    (-100, -100), is the [RuntimeError]; and with a negative [max_iters] the
    first centroid is returned as it is. *)
Theorem find_center_nan :
  forall data x0 y0 cutout_size max_iters,
    (centroid_com data x0 y0 (cutout_size / 2) false = None ->
     find_center data (x0, y0) cutout_size max_iters = Profile.Fine None)
    /\ (forall x_cm y_cm,
          centroid_com data x0 y0 (cutout_size / 2) false
          = Some (x_cm, y_cm) ->
          0 <= max_iters ->
          (- (100) + (1 # 10)
           < x_cm + inject_Z x0 - inject_Z (cutout_size / 2))%Q ->
          centroid_com data (Qfloor x_cm + x0 - cutout_size / 2)
            (Qfloor y_cm + y0 - cutout_size / 2) (cutout_size / 2) true
          = None ->
          find_center data (x0, y0) cutout_size max_iters
          = Profile.Fails Profile.CentroidFailed)
    /\ (forall x_cm y_cm,
          centroid_com data x0 y0 (cutout_size / 2) false
          = Some (x_cm, y_cm) ->
          max_iters < 0 ->
          find_center data (x0, y0) cutout_size max_iters
          = Profile.Fine
              (Some (x_cm + inject_Z x0 - inject_Z (cutout_size / 2),
                     y_cm + inject_Z y0 - inject_Z (cutout_size / 2))%Q)).
Proof.
  intros data x0 y0 cutout_size max_iters. unfold Profile.find_center.
  split; [ | split ].
  - intros ->. reflexivity.
  - intros x_cm y_cm -> Hiters Hfar Hnan.
    destruct (Z.to_nat (max_iters + 1)) as [ | rounds ] eqn:Hr; [ lia | ].
    cbn [Profile.find_center_loop Profile.x_cm Profile.y_cm Profile.x
         Profile.y Profile.cen Profile.ceno].
    assert (Hmoved : Profile.moved
                       (x_cm + inject_Z x0 - inject_Z (cutout_size / 2),
                        y_cm + inject_Z y0 - inject_Z (cutout_size / 2))%Q
                       (- (100), - (100))%Q = true).
    { unfold Profile.moved. apply is_less_than. cbn [fst snd].
      match goal with
      | |- (_ < Profile.largest ?a ?b)%Q =>
          destruct (largest_bounds a b) as [Ha _];
          apply Qlt_le_trans with (2 := Ha)
      end.
      apply Qlt_le_trans with (2 := Qabs.Qle_Qabs _). Lqa.lra. }
    rewrite Hmoved, orb_true_r, Hnan. reflexivity.
  - intros x_cm y_cm -> Hiters.
    replace (Z.to_nat (max_iters + 1)) with 0%nat by lia. reflexivity.
Qed.

End Centring.

(** * The further statements on sample inputs *)

Lemma default_construction_needs_fresh_data_witness :
  exists p,
    PhotometryData_init uncorrected greenwich unit_gain_camera good_table
      (Some []) false = Ok p
    /\ has_col good_table "snr" = false
    /\ PhotometryData_init uncorrected greenwich unit_gain_camera
         (setitem good_table "aperture_area" (quantity_col (unit_pow 2 u_pix) 78))
         (Some []) false
       = Err (ValueError (ComputedExists "aperture_area")).
Proof.
  eexists. split; [ vm_compute; reflexivity | ].
  destruct (default_construction_needs_fresh_data uncorrected greenwich
              unit_gain_camera good_table (Some [])) as [Hfresh _].
  destruct (default_construction_needs_fresh_data uncorrected greenwich
              unit_gain_camera
              (setitem good_table "aperture_area"
                 (quantity_col (unit_pow 2 u_pix) 78))
              (Some [])) as [_ Hrefused].
  split.
  - apply (Hfresh _ eq_refl). simpl. auto.
  - apply (Hrefused []); reflexivity.
Defined.

Lemma input_columns_unchanged_witness :
  exists p,
    PhotometryData_init uncorrected greenwich unit_gain_camera good_table
      (Some [("B", "SB")]) false = Ok p
    /\ lookup (cols p) "file" = Some (StrCol ["image.fits"])
    /\ lookup (cols p) "noise" = Some (quantity_col u_adu 10).
Proof.
  eexists. split; [ vm_compute; reflexivity | ].
  destruct (input_columns_unchanged uncorrected greenwich unit_gain_camera
              good_table (Some [("B", "SB")]) _ eq_refl) as [Hkept _].
  split; apply Hkept; first [ reflexivity | discriminate ].
Defined.

Lemma retained_columns_kept_witness :
  exists p,
    PhotometryData_init uncorrected greenwich unit_gain_camera user_table
      (Some []) true = Ok p
    /\ lookup (cols p) "night" = Some (IntCol [7]).
Proof.
  eexists. split; [ vm_compute; reflexivity | ].
  destruct (retained_columns_kept uncorrected greenwich unit_gain_camera
              user_table (Some []) _ eq_refl) as [Hkept _].
  exact (Hkept "night" ltac:(simpl; auto 10) eq_refl).
Defined.

Lemma mag_inst_not_retained_witness :
  lookup user_table "mag_inst" = Some (NumCol None [F_lit 12])
  /\ exists p,
       PhotometryData_init uncorrected greenwich unit_gain_camera user_table
         (Some []) true = Ok p
       /\ lookup (cols p) "mag_inst"
          = Some (NumCol None
                    [error_of_snr (snr_of (F_lit 1) (F_lit 100) (F_lit 10))]).
Proof.
  split; [ reflexivity | ].
  eexists. split; [ vm_compute; reflexivity | ].
  destruct (mag_inst_not_retained uncorrected greenwich unit_gain_camera
              user_table (Some []) true _ eq_refl eq_refl)
    as [col [u [vals [Hsnr [Hnum Hmag]]]]].
  vm_compute in Hsnr. inversion Hsnr. subst col.
  vm_compute in Hnum. inversion Hnum. subst u vals.
  exact Hmag.
Defined.

Lemma constructed_colnames_witness :
  exists p,
    PhotometryData_init uncorrected greenwich unit_gain_camera good_table
      (Some []) false = Ok p
    /\ colnames (cols p)
       = (colnames good_table
            ++ ["aperture_area"; "annulus_area"; "snr"; "bjd"; "night";
                "mag_inst"])%list.
Proof.
  eexists. split; [ vm_compute; reflexivity | ].
  apply (constructed_colnames uncorrected greenwich unit_gain_camera
           good_table (Some []) _ eq_refl).
Defined.

Lemma computed_areas_witness :
  exists p,
    PhotometryData_init uncorrected greenwich unit_gain_camera good_table
      (Some []) false = Ok p
    /\ lookup (cols p) "aperture_area"
       = Some (NumCol (Some (unit_pow 2 u_pix)) [area_of (F_lit 5)])
    /\ lookup (cols p) "annulus_area"
       = Some (NumCol (Some (unit_pow 2 u_pix))
                      [annulus_area_of (F_lit 15) (F_lit 10)]).
Proof.
  eexists. split; [ vm_compute; reflexivity | ].
  destruct (computed_areas uncorrected greenwich unit_gain_camera good_table
              (Some []) _ eq_refl)
    as [r [r_out [r_in [Hr [Ho [Hi [Harea Hann]]]]]]].
  vm_compute in Hr, Ho, Hi. inversion Hr. inversion Ho. inversion Hi.
  subst r r_out r_in. split; assumption.
Defined.

Lemma computed_snr_witness :
  exists p,
    PhotometryData_init uncorrected greenwich unit_gain_camera good_table
      (Some []) false = Ok p
    /\ lookup (cols p) "snr"
       = Some (NumCol None [snr_of (F_lit 1) (F_lit 100) (F_lit 10)]).
Proof.
  eexists. split; [ vm_compute; reflexivity | ].
  destruct (proj1 (computed_snr uncorrected) greenwich unit_gain_camera
              good_table (Some []) _ eq_refl)
    as [cnts [noise [Hc [Hn Hsnr]]]].
  vm_compute in Hc, Hn. inversion Hc. inversion Hn. subst cnts noise.
  exact Hsnr.
Defined.


Lemma construction_lookup_errors_witness :
  PhotometryData_init uncorrected greenwich unit_gain_camera [] (Some []) false
  = Err (KeyError "date-obs")
  /\ PhotometryData_init uncorrected greenwich unit_gain_camera
       [("date-obs", TimeCol UTC [])] (Some []) false
     = Err IndexError.
Proof.
  destruct (construction_lookup_errors uncorrected greenwich unit_gain_camera
              [] [] false) as [Hmissing _].
  destruct (construction_lookup_errors uncorrected greenwich unit_gain_camera
              [("date-obs", TimeCol UTC [])] [] false) as [_ [Hempty _]].
  split; [ now apply Hmissing | ].
  apply (Hempty (TimeCol UTC [])); reflexivity.
Defined.



Lemma hr_offset_range_witness : -12 <= hr_offset western_site <= 12.
Proof.
  apply (hr_offset_range western_site); discriminate.
Defined.

Lemma night_counts_local_noons_witness :
  night_of (-6) (86400 * 60000 + 7200) = 59999.
Proof.
  apply (proj1 (night_counts_local_noons (-6) (86400 * 60000 + 7200)
                  ltac:(lia) ltac:(lia))).
Defined.

Lemma hwhm_between_bins_witness :
  exists r_half,
    find_hwhm three_bins = Ok r_half /\ (3 <= r_half)%Q /\ (r_half <= 4)%Q.
Proof.
  apply (hwhm_between_bins three_bins 1%nat 3%Q 4%Q (6 # 10) (4 # 10));
    try reflexivity; try discriminate.
  intros j x Hj Hx.
  destruct j as [ | [ | j ] ]; [ | | lia ]; inversion Hx; subst; discriminate.
Defined.

Lemma find_hwhm_fails_iff_witness :
  find_hwhm (mkRadialProfile [0; 1]%Q [1; 6 # 10]%Q) = Err IndexError
  /\ exists r_half, find_hwhm narrow_star = Ok r_half.
Proof.
  split.
  - apply (proj1 (find_hwhm_fails_iff
                    (mkRadialProfile [0; 1]%Q [1; 6 # 10]%Q) eq_refl)).
    intros x [<- | [<- | []]]; discriminate.
  - apply (proj2 (find_hwhm_fails_iff narrow_star eq_refl)).
    exists (1 # 10)%Q. split; [ simpl; auto | reflexivity ].
Defined.

Lemma rounded_widths_witness :
  exists fwhm radius,
    FWHM narrow_star = Ok fwhm
    /\ show_event_aperture_radius narrow_star = Ok radius
    /\ Z.abs (radius - np_round ((15 # 10) * inject_Z fwhm)%Q) <= 1.
Proof.
  destruct (rounded_widths narrow_star _ eq_refl)
    as [fwhm [radius [Hf [Hr [_ [_ Hd]]]]]].
  exists fwhm, radius. repeat split; assumption.
Defined.

Lemma update_colnames_one_witness :
  exists t,
    Catalog.update_colnames [("RAJ2000", "ra")] vizier_table = Ok t
    /\ lookup t "ra" = lookup vizier_table "RAJ2000"
    /\ lookup t "RAJ2000" = None.
Proof.
  destruct (proj1 (update_colnames_one vizier_table "RAJ2000" "ra")
              eq_refl ltac:(discriminate) eq_refl)
    as [t [Ht [Hnew [Hold _]]]].
  exists t. repeat split; assumption.
Defined.

Lemma radial_profile_keeps_counts_witness :
  exists r_exact ravg prof,
    Profile.radial_profile pixels whole_image whole_sqrt small_star
      (Some (1, 1)%Q) 3 false = Profile.Fine (r_exact, ravg, prof)
    /\ (Profile.Qsum prof == 22)%Q.
Proof.
  do 3 eexists. split; [ vm_compute; reflexivity | ].
  destruct (radial_profile_keeps_counts pixels whole_image whole_sqrt
              small_star (Some (1, 1)%Q) 3 _ _ _ eq_refl)
    as [position [sub_image [_ [Hcut [Hsum _]]]]].
  vm_compute in Hcut. inversion Hcut. subst sub_image.
  exact Hsum.
Defined.

Lemma radial_profile_aligned_witness :
  exists r_exact ravg prof,
    Profile.radial_profile pixels whole_image whole_sqrt small_star
      (Some (1, 1)%Q) 3 true = Profile.Fine (r_exact, ravg, prof)
    /\ List.length ravg = List.length prof
    /\ List.length r_exact = 9%nat.
Proof.
  do 3 eexists. split; [ vm_compute; reflexivity | ].
  destruct (radial_profile_aligned pixels whole_image whole_sqrt small_star
              (Some (1, 1)%Q) 3 true _ _ _ eq_refl) as [H1 [H2 _]].
  split; assumption.
Defined.

Lemma profile_normalised_witness :
  exists p,
    Profile.profile pixels whole_image whole_sqrt centred_star 3
    = Profile.Fine p
    /\ exists v, In v (Profile.scaled_profile p) /\ (v == 1)%Q.
Proof.
  eexists. split; [ vm_compute; reflexivity | ].
  destruct (profile_normalised pixels whole_image whole_sqrt centred_star 3 _
              eq_refl) as [peak [Hmax [_ Hnorm]]].
  vm_compute in Hmax. inversion Hmax. subst peak.
  destruct Hnorm as [_ [Hone _]]; [ reflexivity | exact Hone ].
Defined.

Lemma profile_then_hwhm_witness :
  exists p r_half,
    Profile.profile pixels whole_image whole_sqrt centred_star 3
    = Profile.Fine p
    /\ find_hwhm (Profile.measured p) = Ok r_half.
Proof.
  eexists.
  destruct (profile_then_hwhm pixels whole_image whole_sqrt centred_star 3 _
              10%Q 10%Q eq_refl eq_refl eq_refl eq_refl (Qeq_refl _))
    as [i [r_more [r_less [I_more [I_less [_ [_ [_ [_ [_ [_ H]]]]]]]]]]].
  - exists (-4 # 64)%Q. split; [ simpl; auto | reflexivity ].
  - eexists. split; [ reflexivity | exact H ].
Defined.


Lemma find_center_nan_witness :
  Profile.find_center pixels (fun _ _ _ _ _ => None) small_star (1, 1) 30 10
  = Profile.Fine None
  /\ Profile.find_center pixels
       (fun _ _ _ _ masked => if masked then None else Some (15, 15)%Q)
       small_star (50, 50) 30 10
     = Profile.Fails Profile.CentroidFailed.
Proof.
  destruct (find_center_nan pixels (fun _ _ _ _ _ => None) small_star 1 1 30
              10) as [Hnan _].
  destruct (find_center_nan pixels
              (fun _ _ _ _ masked => if masked then None else Some (15, 15)%Q)
              small_star 50 50 30 10) as [_ [Hloop _]].
  split; [ now apply Hnan | ].
  apply (Hloop 15%Q 15%Q); first [ reflexivity | lia ].
Defined.
